(** * json-quiz: the exam session of [src/App.tsx]

    A shallow embedding of the [QuizExamApp] component: the upload
    validator ([handleFileUpload]), the session state held in the six
    [useState] cells and its handlers, the scoring function
    [calculateResults] and the banding function [getScoreColor].

    Conventions.
    - A JavaScript [number] that is data (a question's [answer], the
      selected choice, the score) is an IEEE binary64 value: Rocq's
      primitive [float].  Comparisons are the IEEE ones ([=?], [<=?]).
    - A [number] that is an array index, a length or a counter is an exact
      integer ([nat] or [Z]); JavaScript computes with these exactly below
      2^53 and an array is shorter than 2^32.
    - [undefined] is [None]; a thrown exception is the left injection of a
      sum. *)

From Stdlib Require Import ZArith Floats Uint63.
From stdpp Require Import base option list gmap strings pretty.

Local Open Scope Z_scope.
Set Warnings "-register-all,-inexact-float".

(** ** Parsed JSON

    What [JSON.parse] returns.  An object is the list of its own
    properties ([JSON.parse] keeps one binding per key). *)

Inductive json : Type :=
  | JNull
  | JBool (b : bool)
  | JNum (n : float)
  | JStr (s : string)
  | JArr (items : list json)
  | JObj (props : list (string * json)).

(** ** Exceptions *)

Inductive exn : Type :=
  | Error (message : string)
  | TypeError (message : string)
  | SyntaxError.

Definition result (A : Type) : Type := exn + A.

Definition throw {A} (e : exn) : result A := inl e.
Definition ret {A} (a : A) : result A := inr a.

#[global] Instance result_bind : MBind result := λ A B k m,
  match m with
  | inl e => inl e
  | inr a => k a
  end.

(** ** Property access and coercions *)

Fixpoint own_property (props : list (string * json)) (key : string) : option json :=
  match props with
  | [] => None
  | (k, v) :: rest => if String.eqb k key then Some v else own_property rest key
  end.

(** [v.key] for a key that no prototype defines (the validator reads
    [question], [choices] and [answer]): the own property of an object,
    [undefined] on a primitive or an array, a [TypeError] on [null]. *)
Definition get (v : json) (key : string) : result (option json) :=
  match v with
  | JNull =>
      throw (TypeError ("Cannot read properties of null (reading '" +:+ key +:+ "')"))
  | JObj props => ret (own_property props key)
  | _ => ret None
  end.

(** [ToBoolean]. *)
Definition truthy (v : option json) : bool :=
  match v with
  | None => false
  | Some JNull => false
  | Some (JBool b) => b
  | Some (JNum n) => negb (PrimFloat.eqb n 0 || PrimFloat.is_nan n)
  | Some (JStr s) => negb (String.eqb s "")
  | Some (JArr _) => true
  | Some (JObj _) => true
  end.

Definition Array_isArray (v : option json) : bool :=
  match v with
  | Some (JArr _) => true
  | _ => false
  end.

Definition typeof_number (v : option json) : bool :=
  match v with
  | Some (JNum _) => true
  | _ => false
  end.

(** ** The validator (App.tsx, lines 39-52) *)

(** The condition of the [if] inside [forEach]:
    [!q.question || !q.choices || !Array.isArray(q.choices)
     || typeof q.answer !== "number"]. *)
Definition malformed (q : json) : result bool :=
  question ← get q "question" ;
  if negb (truthy question) then ret true else
  choices ← get q "choices" ;
  if negb (truthy choices) then ret true else
  choices' ← get q "choices" ;
  if negb (Array_isArray choices') then ret true else
  answer ← get q "answer" ;
  ret (negb (typeof_number answer)).

(** [jsonData.forEach((q, index) => ...)], started at [index]. *)
Fixpoint forEach (items : list json) (index : nat) : result unit :=
  match items with
  | [] => ret tt
  | q :: rest =>
      bad ← malformed q ;
      if bad : bool
      then throw (Error ("Invalid question structure at index " +:+ pretty index))
      else forEach rest (S index)
  end.

Definition validate (jsonData : json) : result (list json) :=
  match jsonData with
  | JArr items => _ ← forEach items 0%nat ; ret items
  | _ => throw (Error "JSON must be an array of questions")
  end.

(** ** Component state: the six [useState] cells (App.tsx, lines 18-23) *)

Record State : Type := mkState {
  questions : list json;
  currentQuestion : Z;
  userAnswers : gmap Z float;
  showResults : bool;
  examStarted : bool;
  uploadError : string;
}.

Definition initialState : State :=
  mkState [] 0 ∅ false false "".

Definition setQuestions (v : list json) (s : State) : State :=
  mkState v (currentQuestion s) (userAnswers s) (showResults s) (examStarted s) (uploadError s).
Definition setCurrentQuestion (v : Z) (s : State) : State :=
  mkState (questions s) v (userAnswers s) (showResults s) (examStarted s) (uploadError s).
Definition setUserAnswers (v : gmap Z float) (s : State) : State :=
  mkState (questions s) (currentQuestion s) v (showResults s) (examStarted s) (uploadError s).
Definition setShowResults (v : bool) (s : State) : State :=
  mkState (questions s) (currentQuestion s) (userAnswers s) v (examStarted s) (uploadError s).
Definition setExamStarted (v : bool) (s : State) : State :=
  mkState (questions s) (currentQuestion s) (userAnswers s) (showResults s) v (uploadError s).
Definition setUploadError (v : string) (s : State) : State :=
  mkState (questions s) (currentQuestion s) (userAnswers s) (showResults s) (examStarted s) v.

(** ** The screen shown (App.tsx, lines 126, 176, 313, 337)

    The component has no phase variable: the render function tests
    [questions.length === 0], then [showResults], then [!examStarted]. *)

Inductive Phase : Type := Empty | Ready | InProgress | Results.

Definition phase (s : State) : Phase :=
  if (length (questions s) =? 0)%nat then Empty
  else if showResults s then Results
  else if negb (examStarted s) then Ready
  else InProgress.

(** ** Handlers *)

(** The success path of [reader.onload] (lines 54-59). *)
Definition load (jsonData : list json) (s : State) : State :=
  setUploadError ""
    (setExamStarted false
      (setShowResults false
        (setCurrentQuestion 0
          (setUserAnswers ∅
            (setQuestions jsonData s))))).

(** [e.target?.result] of a [FileReader]: a string, or an [ArrayBuffer]
    or [null]. *)
Inductive reader_result : Type :=
  | ResultString (text : string)
  | ResultOther.

Definition upload_message : string :=
  "Invalid JSON format. Please check your file structure.".

(** Lines 70-75. *)
Definition handleAnswerSelect (answerIndex : float) (s : State) : State :=
  setUserAnswers (<[currentQuestion s := answerIndex]> (userAnswers s)) s.

(** Lines 77-81. *)
Definition nextQuestion (s : State) : State :=
  if currentQuestion s <? Z.of_nat (length (questions s)) - 1
  then setCurrentQuestion (currentQuestion s + 1) s
  else s.

(** Lines 83-87. *)
Definition prevQuestion (s : State) : State :=
  if 0 <? currentQuestion s
  then setCurrentQuestion (currentQuestion s - 1) s
  else s.

(** Lines 89-91. *)
Definition finishExam (s : State) : State := setShowResults true s.

(** Lines 93-98. *)
Definition restartExam (s : State) : State :=
  setExamStarted false
    (setShowResults false
      (setCurrentQuestion 0
        (setUserAnswers ∅ s))).

(** The [onClick] of "Start Exam" (line 326). *)
Definition startExam (s : State) : State := setExamStarted true s.

(** The [onClick] of "Upload New Quiz" (lines 225-231). *)
Definition uploadNewQuiz (s : State) : State :=
  setExamStarted false
    (setShowResults false
      (setCurrentQuestion 0
        (setUserAnswers ∅
          (setQuestions [] s)))).

(** ** Scoring (App.tsx, lines 100-123) *)

(** [number | string]: the type of [score]. *)
Inductive number_or_string : Type :=
  | Num (n : float)
  | Str (s : string).

Record Summary : Type := mkSummary {
  totalQuestions : nat;
  answeredQuestions : nat;
  correctAnswers : nat;
  score : number_or_string;
}.

(** [a === b] for [a] a number or [undefined] and [b] any value. *)
Definition strict_equals (a : option float) (b : option json) : bool :=
  match a, b with
  | None, None => true
  | Some x, Some (JNum y) => PrimFloat.eqb x y
  | _, _ => false
  end.

(** [items.reduce((acc, item, index) => f(acc, item, index), acc)],
    started at [index]; the callback may throw. *)
Fixpoint reduce {A B} (f : B → A → nat → result B) (items : list A)
    (index : nat) (acc : B) : result B :=
  match items with
  | [] => ret acc
  | item :: rest => acc' ← f acc item index ; reduce f rest (S index) acc'
  end.

(** An exact integer as a [number]. *)
Definition Number_of_nat (n : nat) : float :=
  PrimFloat.of_uint63 (Uint63.of_Z (Z.of_nat n)).

(** *** [Number.prototype.toFixed]

    ECMA-262, 21.1.3.3, for [0 <= fractionDigits <= 100].  A finite float
    is [(-1)^s * m * 2^e]; its magnitude is the fraction
    [numerator m e / denominator e]. *)

Definition numerator (m : positive) (e : Z) : Z := Z.pos m * 2 ^ Z.max 0 e.
Definition denominator (e : Z) : Z := 2 ^ Z.max 0 (- e).

(** Step 11.a: the integer [n] for which [n / 10^f - x] is as close to
    zero as possible, the larger one when there are two. *)
Definition nearest (f : nat) (m : positive) (e : Z) : Z :=
  (2 * 10 ^ Z.of_nat f * numerator m e + denominator e) / (2 * denominator e).

Fixpoint zeros (k : nat) : string :=
  match k with
  | O => ""
  | S k' => "0" +:+ zeros k'
  end.

(** Steps 11.b-11.d: the digits of [n] with a point before the last [f]. *)
Definition fixed_digits (f : nat) (n : Z) : string :=
  let m := if n =? 0 then "0" else pretty (Z.to_N n) in
  if (f =? 0)%nat then m else
  let k := String.length m in
  let m := if (k <=? f)%nat then zeros (f + 1 - k) +:+ m else m in
  let k := if (k <=? f)%nat then (f + 1)%nat else k in
  String.substring 0 (k - f) m +:+ "." +:+ String.substring (k - f) f m.

(** ** User intents *)

Inductive Action : Type :=
  | Load (file : option reader_result)
  | Start
  | SelectAnswer (answerIndex : float)
  | Next
  | Previous
  | Finish
  | Restart
  | Reset.

Section App.

(** Library functions that the component calls and that are not modelled:
    [JSON.parse] ([None] when it throws a [SyntaxError]),
    [Number::toString] and [parseFloat]. *)
Variable JSON_parse : string → option json.
Variable Number_toString : float → string.
Variable parseFloat : string → float.

(** The [try] block of [reader.onload] up to the last [throw]
    (lines 32-52). *)
Definition read_questions (r : reader_result) : result (list json) :=
  match r with
  | ResultOther => throw (Error "Failed to read file content")
  | ResultString text =>
      match JSON_parse text with
      | None => throw SyntaxError
      | Some jsonData => validate jsonData
      end
  end.

(** [reader.onload] (lines 30-66). *)
Definition reader_onload (r : reader_result) (s : State) : State :=
  match read_questions r with
  | inr jsonData => load jsonData s
  | inl _ => setUploadError upload_message s
  end.

Definition Number_toFixed (fractionDigits : nat) (x : float) : string :=
  match Prim2SF x with
  | S754_nan | S754_infinity _ => Number_toString x
  | S754_zero _ => fixed_digits fractionDigits 0
  | S754_finite s m e =>
      let sign := if s then "-" else "" in
      if 10 ^ 21 * denominator e <=? numerator m e
      then sign +:+ Number_toString (PrimFloat.abs x)
      else sign +:+ fixed_digits fractionDigits (nearest fractionDigits m e)
  end.

(** The callback of [questions.reduce] (line 104). *)
Definition count_correct (answers : gmap Z float) (acc : nat) (question : json)
    (index : nat) : result nat :=
  answer ← get question "answer" ;
  ret (acc + (if strict_equals (answers !! Z.of_nat index) answer then 1 else 0))%nat.

(** [calculateResults], as a function of the two cells it reads. *)
Definition summarize (qs : list json) (answers : gmap Z float) : result Summary :=
  let totalQuestions := length qs in
  let answeredQuestions := size answers in
  correctAnswers ← reduce (count_correct answers) qs 0%nat 0%nat ;
  ret (mkSummary totalQuestions answeredQuestions correctAnswers
         (if (0 <? totalQuestions)%nat
          then Str (Number_toFixed 1
                      (Number_of_nat correctAnswers / Number_of_nat totalQuestions * 100)%float)
          else Num 0%float)).

Definition calculateResults (s : State) : result Summary :=
  summarize (questions s) (userAnswers s).

(** The "Incorrect" tile (line 202). *)
Definition incorrect (results : Summary) : Z :=
  Z.of_nat (totalQuestions results) - Z.of_nat (correctAnswers results).

(** Lines 118-123. *)
Definition getScoreColor (score : number_or_string) : string :=
  let numScore := match score with Str s => parseFloat s | Num n => n end in
  if (80 <=? numScore)%float then "text-green-600"
  else if (60 <=? numScore)%float then "text-yellow-600"
  else "text-red-600".

(** The score as the specification words it:
    [total == 0 ? 0 : round1(correct / total * 100)], in binary64
    arithmetic, [round1] printing one decimal as [toFixed(1)] does. *)
Definition scorePercent (correct total : nat) : number_or_string :=
  if (0 <? total)%nat
  then Str (Number_toFixed 1
              (Number_of_nat correct / Number_of_nat total * 100)%float)
  else Num 0%float.

(** [handleFileUpload] (lines 25-68) with the read it starts: no file
    selected ([None]), or the result that [reader.onload] receives. *)
Definition handleFileUpload (file : option reader_result) (s : State) : State :=
  match file with
  | None => s
  | Some r => reader_onload r s
  end.

(** ** The session as a transition system *)

Definition handle (a : Action) (s : State) : State :=
  match a with
  | Load file => handleFileUpload file s
  | Start => startExam s
  | SelectAnswer answerIndex => handleAnswerSelect answerIndex s
  | Next => nextQuestion s
  | Previous => prevQuestion s
  | Finish => finishExam s
  | Restart => restartExam s
  | Reset => uploadNewQuiz s
  end.

(** The choice buttons exist on the exam screen only (line 369); a read
    may complete on any screen.  The other handlers are given no
    condition, so that the relation contains every run of the component
    and every sequence of the operations of the specification in which
    answers are selected during the exam. *)
Definition enabled (a : Action) (s : State) : Prop :=
  match a with
  | SelectAnswer _ => phase s = InProgress
  | _ => True
  end.

Inductive reachable : State → Prop :=
  | reachable_initial : reachable initialState
  | reachable_step a s :
      reachable s → enabled a s → reachable (handle a s).

End App.

(** * Specification *)

(** An element that passes the check of [forEach]. *)
Definition is_question (q : json) : Prop := malformed q = inr false.

(** [q.answer] when it is a number. *)
Definition answer_of (q : json) : option float :=
  match get q "answer" with
  | inr (Some (JNum a)) => Some a
  | _ => None
  end.

(** Question [i] is answered and the stored choice equals its [answer]. *)
Definition answered_correctly (qs : list json) (answers : gmap Z float)
    (i : nat) : bool :=
  match answers !! Z.of_nat i, qs !! i ≫= answer_of with
  | Some v, Some a => PrimFloat.eqb v a
  | _, _ => false
  end.

(** The number of questions answered correctly. *)
Definition correct_count (qs : list json) (answers : gmap Z float) : nat :=
  length (filter (λ i, answered_correctly qs answers i) (seq 0 (length qs))).

(** A key of the answer map is the index of a question. *)
Definition keys_in_range (s : State) : Prop :=
  ∀ k : Z, k ∈ dom (userAnswers s) →
    0 ≤ k ≤ Z.of_nat (length (questions s)) - 1.

Definition position_in_range (s : State) : Prop :=
  0 ≤ currentQuestion s < Z.max 1 (Z.of_nat (length (questions s))).

Definition invariant (s : State) : Prop :=
  Forall is_question (questions s) ∧ keys_in_range s ∧ position_in_range s.

(** [n / 10^f] is a closest fraction with [f] decimals to [m * 2^e], and
    the larger of the two when [m * 2^e] lies halfway.  The distance of
    [k / 10^f] is compared after scaling by [10^f * denominator e]. *)
Definition distance (f : nat) (m : positive) (e : Z) (k : Z) : Z :=
  Z.abs (k * denominator e - 10 ^ Z.of_nat f * numerator m e).

Definition closest (f : nat) (m : positive) (e : Z) (n : Z) : Prop :=
  ∀ k : Z,
    distance f m e n ≤ distance f m e k ∧
    (distance f m e k = distance f m e n → k ≤ n).

(** The tenths that [toFixed(1)] prints for a number that is zero, or
    positive and below [10^21]. *)
Definition printed_tenths (x : float) : option Z :=
  match Prim2SF x with
  | S754_zero _ => Some 0
  | S754_finite false m e =>
      if 10 ^ 21 * denominator e <=? numerator m e then None
      else Some (nearest 1 m e)
  | _ => None
  end.

(** [n / 10] differs from the exact quotient [100 * c / t] by at most
    [1 / 20]: no number with one decimal is closer. *)
Definition nearest_tenth (c t : nat) (n : Z) : Prop :=
  2 * Z.abs (n * Z.of_nat t - 1000 * Z.of_nat c) ≤ Z.of_nat t.

Definition score_check (c t : nat) : bool :=
  match printed_tenths (Number_of_nat c / Number_of_nat t * 100)%float with
  | Some n => 2 * Z.abs (n * Z.of_nat t - 1000 * Z.of_nat c) <=? Z.of_nat t
  | None => false
  end.

(** The constants of [getScoreColor], decoded. *)
Definition SF80 : spec_float := S754_finite false 5629499534213120 (-46).
Definition SF60 : spec_float := S754_finite false 8444249301319680 (-47).

(** ** Sample data *)

Definition question_1 : json :=
  JObj [("question", JStr "1+1?");
        ("choices", JArr [JStr "1"; JStr "2"; JStr "3"]);
        ("answer", JNum 1)].

Definition question_2 : json :=
  JObj [("question", JStr "2+2?");
        ("choices", JArr [JStr "3"; JStr "4"]);
        ("answer", JNum 1)].

Definition sample_quiz : list json := [question_1; question_2].

(** A session on the second question of [sample_quiz], the first one
    answered. *)
Definition sample_session : State :=
  mkState sample_quiz 1 {[ 0 := 1%float ]} false true "".

Definition quote : string := String (Ascii.ascii_of_nat 34) "".

(** The text of a file with one question: prompt Q, no choice, answer 0. *)
Definition sample_text : string :=
  "[{" +:+ quote +:+ "question" +:+ quote +:+ ":" +:+ quote +:+ "Q" +:+ quote +:+
  "," +:+ quote +:+ "choices" +:+ quote +:+ ":[]," +:+
  quote +:+ "answer" +:+ quote +:+ ":0}]".

(** [JSON.parse] on four texts; it throws on any other. *)
Definition sample_parse (text : string) : option json :=
  if String.eqb text "[]" then Some (JArr [])
  else if String.eqb text "[null]" then Some (JArr [JNull])
  else if String.eqb text "{}" then Some (JObj [])
  else if String.eqb text sample_text
  then Some (JArr [JObj [("question", JStr "Q"); ("choices", JArr []);
                         ("answer", JNum 0)]])
  else None.

(** Stands for [Number::toString] where no sample reaches it. *)
Definition no_toString (x : float) : string := "".

(** * The screens

    What the render function computes from the state on the exam screen
    (lines 336-418) and in the detailed review (lines 244-304): the
    values it puts into the elements it returns, or the exception it
    throws.  React then mounts the elements, and throws in its turn when
    a value used as a child is an object ([display], below). *)

(** [items[index]]: [undefined] outside the array. *)
Definition array_get {A} (items : list A) (index : Z) : option A :=
  if index <? 0 then None else items !! Z.to_nat index.

(** [v.key] for a value that may be [undefined]. *)
Definition get_of (v : option json) (key : string) : result (option json) :=
  match v with
  | None =>
      throw (TypeError ("Cannot read properties of undefined (reading '" +:+ key +:+ "')"))
  | Some j => get j key
  end.

(** An exact integer as a [number]. *)
Definition Number_of_Z (z : Z) : float :=
  if z <? 0 then (- Number_of_nat (Z.to_nat (- z)))%float
  else Number_of_nat (Z.to_nat z).

(** [v === n] for any value [v] and a number [n]. *)
Definition equals_number (v : option json) (n : float) : bool :=
  match v with
  | Some (JNum a) => PrimFloat.eqb a n
  | _ => false
  end.

(** The code unit of the string [String.fromCharCode(code)]. *)
Definition String_fromCharCode (code : Z) : Z := code mod 65536.

(** [Math.round] of a number: not a number, infinite, or the integer
    closest to it, the larger one at a tie (a zero result has no sign
    here). *)
Inductive rounded : Type :=
  | RoundedNaN
  | RoundedInfinity (negative : bool)
  | RoundedInteger (z : Z).

Definition Math_round (x : float) : rounded :=
  match Prim2SF x with
  | S754_nan => RoundedNaN
  | S754_infinity s => RoundedInfinity s
  | S754_zero _ => RoundedInteger 0
  | S754_finite s m e =>
      let num := if s then - numerator m e else numerator m e in
      RoundedInteger ((2 * num + denominator e) / (2 * denominator e))
  end.

(** [value.map(f)] with the index passed to [f]; a [TypeError] unless
    [value] is an array. *)
Definition map_array {B} (key : string) (value : option json)
    (f : nat → json → B) : result (list B) :=
  match value with
  | Some (JArr items) => ret (imap f items)
  | None =>
      throw (TypeError "Cannot read properties of undefined (reading 'map')")
  | Some JNull =>
      throw (TypeError "Cannot read properties of null (reading 'map')")
  | Some _ => throw (TypeError (key +:+ ".map is not a function"))
  end.

(** ** The exam screen *)

Record ChoiceButton : Type := mkChoiceButton {
  buttonLabel : Z;
  buttonText : json;
  buttonSelected : bool;
  buttonOnClick : Action;
}.

Record ExamScreen : Type := mkExamScreen {
  questionNumber : Z;
  questionTotal : nat;
  progress : float;
  progressPercent : rounded;
  prompt : option json;
  choiceButtons : list ChoiceButton;
  previousDisabled : bool;
  lastButton : Action;
  answeredCount : nat;
}.

(** Lines 366-381: one button per choice. *)
Definition choiceButton (s : State) (index : nat) (choice : json) : ChoiceButton :=
  mkChoiceButton
    (String_fromCharCode (65 + Z.of_nat index))
    choice
    (strict_equals (userAnswers s !! currentQuestion s)
       (Some (JNum (Number_of_nat index))))
    (SelectAnswer (Number_of_nat index)).

(** Lines 337-414: the elements that the component function returns on
    the exam screen, or the exception it throws; [displayExam] is the
    screen that React makes of them. *)
Definition renderExam (s : State) : result ExamScreen :=
  let question := array_get (questions s) (currentQuestion s) in
  let progress :=
    (Number_of_Z (currentQuestion s + 1) / Number_of_nat (length (questions s))
     * 100)%float in
  prompt ← get_of question "question" ;
  choices ← get_of question "choices" ;
  buttons ← map_array "question.choices" choices (choiceButton s) ;
  ret (mkExamScreen
         (currentQuestion s + 1)
         (length (questions s))
         progress
         (Math_round progress)
         prompt
         buttons
         (currentQuestion s =? 0)
         (if currentQuestion s =? Z.of_nat (length (questions s)) - 1
          then Finish else Next)
         (size (userAnswers s))).

(** ** The detailed review *)

Inductive Icon : Type := CheckCircle | XCircle | GrayDot.

Record ChoiceReview : Type := mkChoiceReview {
  choiceLabel : Z;
  choiceText : json;
  isUserChoice : bool;
  isCorrectChoice : bool;
  choiceClass : string;
  checkMark : bool;
  crossMark : bool;
}.

(** [question.reason && (<div>...{question.reason}</div>)]: the box with
    the reason, or the falsy value itself, which React is given as a
    child in its place (nothing is shown for [undefined], [null], [false]
    and the empty string; the number 0 is printed). *)
Inductive ExplanationNode : Type :=
  | ExplanationBox (reason : json)
  | FalsyReason (value : option json).

Record QuestionReview : Type := mkQuestionReview {
  isCorrect : bool;
  wasAnswered : bool;
  cardClass : string;
  icon : Icon;
  reviewNumber : nat;
  reviewPrompt : option json;
  choiceReviews : list ChoiceReview;
  explanation : ExplanationNode;
}.

(** Lines 270-291: one line per choice. *)
Definition reviewChoice (userAnswer : option float) (answer : option json)
    (choiceIndex : nat) (choice : json) : ChoiceReview :=
  let isUserChoice :=
    strict_equals userAnswer (Some (JNum (Number_of_nat choiceIndex))) in
  let isCorrectChoice := equals_number answer (Number_of_nat choiceIndex) in
  mkChoiceReview
    (String_fromCharCode (65 + Z.of_nat choiceIndex))
    choice
    isUserChoice
    isCorrectChoice
    (if isCorrectChoice then "bg-green-200 text-green-800 font-medium"
     else if isUserChoice then "bg-red-200 text-red-800"
     else "bg-gray-100 text-gray-700")
    isCorrectChoice
    (isUserChoice && negb isCorrectChoice).

(** Lines 244-303: the callback of [questions.map], as far as the
    component function goes. *)
Definition reviewQuestion (answers : gmap Z float) (index : nat)
    (question : json) : result QuestionReview :=
  let userAnswer := answers !! Z.of_nat index in
  answer ← get question "answer" ;
  let isCorrect := strict_equals userAnswer answer in
  let wasAnswered := bool_decide (userAnswer ≠ None) in
  prompt ← get question "question" ;
  choices ← get question "choices" ;
  lines ← map_array "question.choices" choices (reviewChoice userAnswer answer) ;
  reason ← get question "reason" ;
  ret (mkQuestionReview
         isCorrect
         wasAnswered
         (if isCorrect then "border-green-200 bg-green-50"
          else if wasAnswered then "border-red-200 bg-red-50"
          else "border-gray-200 bg-gray-50")
         (if wasAnswered
          then if isCorrect then CheckCircle else XCircle
          else GrayDot)
         (index + 1)
         prompt
         lines
         (match reason with
          | Some r => if truthy reason then ExplanationBox r else FalsyReason reason
          | None => FalsyReason None
          end)).

(** [questions.map(...)] of the review, started at [index]. *)
Fixpoint reviewQuestions (answers : gmap Z float) (qs : list json)
    (index : nat) : result (list QuestionReview) :=
  match qs with
  | [] => ret []
  | question :: rest =>
      card ← reviewQuestion answers index question ;
      cards ← reviewQuestions answers rest (S index) ;
      ret (card :: cards)
  end.

(** The cards that the component function returns for the review of a
    session; [displayReview] is what React makes of them. *)
Definition renderReview (s : State) : result (list QuestionReview) :=
  reviewQuestions (userAnswers s) (questions s) 0.

(** ** What React displays

    A string or a number used as a child is shown as text, [null],
    [undefined] and a boolean show nothing, an array shows its elements,
    and a plain object makes React throw ("Objects are not valid as a
    React child"), at any depth of arrays.  Every object that
    [JSON.parse] returns is a plain one. *)

Fixpoint valid_child (v : json) : bool :=
  match v with
  | JObj _ => false
  | JArr items => forallb valid_child items
  | _ => true
  end.

Definition valid_children (v : option json) : bool :=
  match v with
  | None => true
  | Some j => valid_child j
  end.

(** The outcome of a render: the screen, an exception of the component
    function, or the exception of React on an object child. *)
Inductive display (A : Type) : Type :=
  | Displayed (view : A)
  | Throws (e : exn)
  | InvalidChild.

Arguments Displayed {A} view.
Arguments Throws {A} e.
Arguments InvalidChild {A}.

Definition mount {A} (elements : result A) (children : A → list (option json))
    : display A :=
  match elements with
  | inl e => Throws e
  | inr view =>
      if forallb valid_children (children view) then Displayed view
      else InvalidChild
  end.

(** The values of the question set among the children of the exam
    screen: the prompt (line 362) and the choices (line 379). *)
Definition examChildren (view : ExamScreen) : list (option json) :=
  prompt view :: ((λ button, Some (buttonText button)) <$> choiceButtons view).

Definition displayExam (s : State) : display ExamScreen :=
  mount (renderExam s) examChildren.

(** Those of a card of the review: the prompt (line 266), the choices
    (line 287) and the reason (lines 295-297). *)
Definition cardChildren (card : QuestionReview) : list (option json) :=
  reviewPrompt card ::
  ((λ line, Some (choiceText line)) <$> choiceReviews card) ++
  [match explanation card with
   | ExplanationBox reason => Some reason
   | FalsyReason value => value
   end].

Definition displayReview (s : State) : display (list QuestionReview) :=
  mount (renderReview s) (λ cards, cards ≫= cardChildren).

(** A question that React can display: no object in its prompt, its
    choices or its reason. *)
Definition displayable (q : json) : bool :=
  match get q "question", get q "choices", get q "reason" with
  | inr prompt, inr (Some (JArr items)), inr reason =>
      valid_children prompt && forallb valid_child items && valid_children reason
  | _, _, _ => false
  end.

(** ** Definitions for the properties of the screens *)

(** The element at the current position has the prompt [p] (any value,
    [undefined] included) and the array [items] of choices. *)
Definition current_fields (s : State) (q : json) (p : option json)
    (items : list json) : Prop :=
  array_get (questions s) (currentQuestion s) = Some q ∧
  get q "question" = inr p ∧
  get q "choices" = inr (Some (JArr items)).

(** The progress shown for question [position + 1] of [total]. *)
Definition progress_of (position total : nat) : float :=
  (Number_of_Z (Z.of_nat position + 1) / Number_of_nat total * 100)%float.

(** The percentage is in [[1, 100]], no integer is closer to the exact
    quotient, and it is 100 on the last question. *)
Definition progress_check (position total : nat) : bool :=
  match Math_round (progress_of position total) with
  | RoundedInteger n =>
      (1 <=? n) && (n <=? 100) &&
      (2 * Z.abs (n * Z.of_nat total - 100 * (Z.of_nat position + 1))
         <=? Z.of_nat total) &&
      (if (S position =? total)%nat
       then PrimFloat.eqb (progress_of position total) 100
       else PrimFloat.ltb (progress_of position total) 100) &&
      PrimFloat.ltb 0 (progress_of position total)
  | _ => false
  end.

(** The tenths printed for [c] right answers out of [t]. *)
Definition score_tenths (c t : nat) : option Z :=
  printed_tenths (Number_of_nat c / Number_of_nat t * 100)%float.

Definition score_order_check (t : nat) : bool :=
  match score_tenths 0 t, score_tenths t t with
  | Some z, Some k =>
      (z =? 0) && (k =? 1000) &&
      forallb (λ c, match score_tenths c t, score_tenths (S c) t with
                    | Some n, Some n' => n <=? n'
                    | _, _ => false
                    end) (seq 0 t)
  | _, _ => false
  end.

(** [a === b] on decoded numbers: two zeros of any sign, the same
    infinity, or the same finite number. *)
Definition SFsame (a b : spec_float) : Prop :=
  match a, b with
  | S754_zero _, S754_zero _ => True
  | S754_infinity s, S754_infinity s' => s = s'
  | S754_finite s m e, S754_finite s' m' e' => s = s' ∧ m = m' ∧ e = e'
  | _, _ => False
  end.

(** A card of the review: the icon and the colour tell the same verdict,
    and a question counted correct was answered. *)
Definition card_consistent (card : QuestionReview) : Prop :=
  (isCorrect card = true → wasAnswered card = true) ∧
  (icon card = CheckCircle ↔ isCorrect card = true) ∧
  (icon card = XCircle ↔ wasAnswered card = true ∧ isCorrect card = false) ∧
  (icon card = GrayDot ↔ wasAnswered card = false) ∧
  (cardClass card = "border-green-200 bg-green-50" ↔ icon card = CheckCircle) ∧
  (cardClass card = "border-red-200 bg-red-50" ↔ icon card = XCircle) ∧
  (cardClass card = "border-gray-200 bg-gray-50" ↔ icon card = GrayDot).

(** The screen after a handler other than an upload, from the screen
    before it. *)
Definition phase_after (a : Action) (before : Phase) : Phase :=
  match a, before with
  | Load _, _ => before
  | Reset, _ => Empty
  | _, Empty => Empty
  | Start, Ready => InProgress
  | Finish, _ => Results
  | Restart, _ => Ready
  | _, _ => before
  end.

(** A question that passes the validator although its answer is the
    index of no choice, and a session on it. *)
Definition question_unanswerable : json :=
  JObj [("question", JStr "Q");
        ("choices", JArr [JStr "a"; JStr "b"]);
        ("answer", JNum 7)].

Definition unanswerable_session : State :=
  mkState [question_unanswerable] 0 ∅ false true "".

Definition quoted (text : string) : string := quote +:+ text +:+ quote.

(** A question that passes the validator with an object as its prompt,
    the text of a file that holds it, and [JSON.parse] on that text. *)
Definition question_object_prompt : json :=
  JObj [("question", JObj [("text", JStr "Q")]);
        ("choices", JArr [JStr "a"]);
        ("answer", JNum 0)].

Definition object_prompt_text : string :=
  "[{" +:+ quoted "question" +:+ ":{" +:+ quoted "text" +:+ ":" +:+
  quoted "Q" +:+ "}," +:+ quoted "choices" +:+ ":[" +:+ quoted "a" +:+ "]," +:+
  quoted "answer" +:+ ":0}]".

Definition object_parse (text : string) : option json :=
  if String.eqb text object_prompt_text
  then Some (JArr [question_object_prompt])
  else None.

(** The text of a file holding [sample_quiz]. *)
Definition sample_quiz_text : string :=
  "[{" +:+ quoted "question" +:+ ":" +:+ quoted "1+1?" +:+ "," +:+
  quoted "choices" +:+ ":[" +:+ quoted "1" +:+ "," +:+ quoted "2" +:+ "," +:+
  quoted "3" +:+ "]," +:+ quoted "answer" +:+ ":1},{" +:+
  quoted "question" +:+ ":" +:+ quoted "2+2?" +:+ "," +:+
  quoted "choices" +:+ ":[" +:+ quoted "3" +:+ "," +:+ quoted "4" +:+ "]," +:+
  quoted "answer" +:+ ":1}]".

(** [JSON.parse] on that text and on those of [sample_parse]. *)
Definition quiz_parse (text : string) : option json :=
  if String.eqb text sample_quiz_text then Some (JArr sample_quiz)
  else sample_parse text.

(** * Properties *)

(** ** The model on known inputs *)

Example validate_sample_quiz : validate (JArr sample_quiz) = inr sample_quiz.
Proof. reflexivity. Qed.

Example validate_not_array :
  validate (JObj []) = inl (Error "JSON must be an array of questions").
Proof. reflexivity. Qed.

(** An empty prompt is falsy; so is the number 0 as a prompt, while a
    non-empty array of choices is not required. *)
Example malformed_prompts :
  malformed (JObj [("question", JStr ""); ("choices", JArr []);
                   ("answer", JNum 0)]) = inr true ∧
  malformed (JObj [("question", JNum 0); ("choices", JArr []);
                   ("answer", JNum 0)]) = inr true ∧
  malformed (JObj [("question", JStr "Q"); ("choices", JArr []);
                   ("answer", JNum 0)]) = inr false ∧
  malformed (JObj [("question", JStr "Q"); ("choices", JStr "ab");
                   ("answer", JNum 0)]) = inr true ∧
  malformed (JObj [("question", JStr "Q"); ("choices", JArr []);
                   ("answer", JStr "0")]) = inr true.
Proof. by split_and!. Qed.

(** [toFixed] rounds the binary value, not the decimal literal. *)
Example toFixed_known :
  Number_toFixed no_toString 2 1.005 = "1.00" ∧
  Number_toFixed no_toString 1 6.25 = "6.3" ∧
  Number_toFixed no_toString 0 2.5 = "3" ∧
  Number_toFixed no_toString 1 (-0.01) = "-0.0" ∧
  Number_toFixed no_toString 1 100 = "100.0" ∧
  Number_toFixed no_toString 3 123456789.125 = "123456789.125".
Proof. by split_and!. Qed.

Example sample_parse_text :
  read_questions sample_parse (ResultString sample_text) =
  inr [JObj [("question", JStr "Q"); ("choices", JArr []); ("answer", JNum 0)]].
Proof. reflexivity. Qed.

(** ** The validator *)

Lemma get_not_null q key :
  q ≠ JNull → ∃ v, get q key = inr v.
Proof. destruct q; intros Hq; try congruence; eexists; reflexivity. Qed.

Lemma malformed_null : ∃ message, malformed JNull = inl (TypeError message).
Proof. eexists. reflexivity. Qed.

(** [null] is the only element on which the check itself throws. *)
Lemma malformed_not_null q :
  q ≠ JNull → ∃ b, malformed q = inr b.
Proof.
  intros Hq. unfold malformed.
  destruct (get_not_null q "question" Hq) as [v1 ->].
  destruct (get_not_null q "choices" Hq) as [v2 ->].
  destruct (get_not_null q "answer" Hq) as [v3 ->].
  cbn. repeat (case_match; cbn; eauto).
Qed.

(** A question carries a truthy [question], an array [choices] and a
    number [answer]. *)
Lemma is_question_fields q :
  is_question q ↔
  ∃ props items a,
    q = JObj props ∧
    truthy (own_property props "question") = true ∧
    own_property props "choices" = Some (JArr items) ∧
    own_property props "answer" = Some (JNum a).
Proof.
  unfold is_question, malformed. split.
  - destruct q as [| | | | |props]; cbn; try discriminate.
    intros H. exists props.
    destruct (truthy (own_property props "question")); cbn in H; [|discriminate].
    destruct (own_property props "choices") as [[| | | |items|]|]; cbn in H;
      try discriminate; try (destruct b; discriminate);
      try (destruct (negb _); discriminate).
    destruct (own_property props "answer") as [[| |a| | |]|]; cbn in H;
      try discriminate.
    by exists items, a.
  - intros (props & items & a & -> & Hq & Hc & Ha). cbn.
    by rewrite Hq, Hc, Ha.
Qed.

Lemma is_question_answer q :
  is_question q → ∃ a, get q "answer" = inr (Some (JNum a)).
Proof.
  intros (props & items & a & -> & _ & _ & Ha)%is_question_fields.
  exists a. cbn. by rewrite Ha.
Qed.

Lemma forEach_questions items index :
  Forall is_question items → forEach items index = inr tt.
Proof.
  intros H. revert index.
  induction H as [|q rest Hq _ IH]; intros index; cbn; [done|].
  unfold is_question in Hq. rewrite Hq. cbn. apply IH.
Qed.

(** Elements are checked in order and the first malformed one decides. *)
Lemma forEach_first_malformed pre q post index :
  Forall is_question pre →
  forEach (pre ++ q :: post) index =
    match malformed q with
    | inl e => inl e
    | inr true =>
        inl (Error ("Invalid question structure at index " +:+ pretty (index + length pre)%nat))
    | inr false => forEach post (S (index + length pre))
    end.
Proof.
  intros H. revert index.
  induction H as [|p pre Hp _ IH]; intros index; cbn.
  - rewrite Nat.add_0_r. destruct (malformed q) as [e|[|]]; reflexivity.
  - unfold is_question in Hp. rewrite Hp. cbn. rewrite IH.
    by replace (S index + length pre)%nat with (index + S (length pre))%nat by lia.
Qed.

Lemma forEach_ok_inv items index :
  forEach items index = inr tt → Forall is_question items.
Proof.
  revert index. induction items as [|q rest IH]; intros index; cbn; [done|].
  destruct (malformed q) as [e|[|]] eqn:Hq; cbn; try discriminate.
  intros H. constructor; [exact Hq | by eapply IH].
Qed.

(** What [validate] accepts: exactly the arrays of questions, returned
    verbatim. *)
Lemma validate_ok jsonData qs :
  validate jsonData = inr qs ↔ jsonData = JArr qs ∧ Forall is_question qs.
Proof.
  split.
  - destruct jsonData as [| | | |items|]; cbn; try discriminate.
    destruct (forEach items 0) as [e|[]] eqn:H; cbn; [discriminate|].
    intros [= <-]. split; [done | by eapply forEach_ok_inv].
  - intros [-> H]. cbn. by rewrite forEach_questions.
Qed.

(** Fail-fast on a malformed element that is not [null]: the error names
    its index, whatever follows it. *)
Lemma validate_fail_fast pre q post :
  Forall is_question pre →
  malformed q = inr true →
  validate (JArr (pre ++ q :: post)) =
    inl (Error ("Invalid question structure at index " +:+ pretty (length pre))).
Proof.
  intros Hpre Hq. cbn. by rewrite forEach_first_malformed, Hq.
Qed.

(** On a [null] element the property access throws before the check is
    made: the exception is a [TypeError] and names no index. *)
Lemma validate_null_element pre post :
  Forall is_question pre →
  validate (JArr (pre ++ JNull :: post)) =
    inl (TypeError "Cannot read properties of null (reading 'question')").
Proof.
  intros Hpre. cbn. by rewrite forEach_first_malformed.
Qed.

(** The message determines the index. *)
Lemma structure_error_index (i j : nat) :
  Error ("Invalid question structure at index " +:+ pretty i) =
  Error ("Invalid question structure at index " +:+ pretty j) → i = j.
Proof.
  cbn. intros [= H]. by apply (inj pretty).
Qed.

(** ** Scoring *)

Lemma answered_correctly_middle pre q rest answers a :
  get q "answer" = inr (Some (JNum a)) →
  answered_correctly (pre ++ q :: rest) answers (length pre) =
  strict_equals (answers !! Z.of_nat (length pre)) (Some (JNum a)).
Proof.
  intros Ha. unfold answered_correctly, answer_of.
  rewrite list_lookup_middle by done. cbn. rewrite Ha.
  by destruct (answers !! Z.of_nat (length pre)).
Qed.

Lemma reduce_cons {A B} (f : B → A → nat → result B) item rest index acc :
  reduce f (item :: rest) index acc =
  f acc item index ≫= reduce f rest (S index).
Proof. reflexivity. Qed.

Lemma count_correct_number answers acc q index a :
  get q "answer" = inr (Some (JNum a)) →
  count_correct answers acc q index =
  inr (acc + (if strict_equals (answers !! Z.of_nat index) (Some (JNum a))
              then 1 else 0))%nat.
Proof. intros Ha. unfold count_correct. by rewrite Ha. Qed.

Lemma reduce_count_correct answers qs : ∀ pre acc,
  Forall is_question qs →
  reduce (count_correct answers) qs (length pre) acc =
  inr (acc + length (filter (λ i, answered_correctly (pre ++ qs) answers i)
                       (seq (length pre) (length qs))))%nat.
Proof.
  induction qs as [|q rest IH]; intros pre acc Hqs.
  - cbn. by rewrite Nat.add_0_r.
  - apply Forall_cons in Hqs as [Hq Hrest].
    destruct (is_question_answer q Hq) as [a Ha].
    rewrite reduce_cons, (count_correct_number _ _ _ _ a Ha).
    change (inr ?x ≫= ?f) with (f x).
    specialize (IH (pre ++ [q])). rewrite length_app in IH. cbn in IH.
    rewrite Nat.add_1_r in IH. rewrite IH by done.
    rewrite <- (assoc_L (++)). f_equal.
    change ([q] ++ rest) with (q :: rest).
    change (seq (length pre) (length (q :: rest)))
      with (length pre :: seq (S (length pre)) (length rest)).
    rewrite filter_cons, (answered_correctly_middle _ _ _ _ a) by done.
    destruct (strict_equals _ _); case_decide as Hdec;
      try (exfalso; cbn in Hdec; tauto); rewrite ?length_cons; lia.
Qed.

(** On a validated question set [summarize] returns, and returns this. *)
Lemma summarize_questions Number_toString qs answers :
  Forall is_question qs →
  summarize Number_toString qs answers =
  inr (mkSummary (length qs) (size answers) (correct_count qs answers)
         (scorePercent Number_toString (correct_count qs answers) (length qs))).
Proof.
  intros Hqs. unfold summarize.
  pose proof (reduce_count_correct answers qs [] 0%nat Hqs) as H.
  change (length (@nil json)) with 0%nat in H. change ([] ++ qs) with qs in H.
  rewrite H. reflexivity.
Qed.

Lemma correct_count_le_total qs answers :
  (correct_count qs answers ≤ length qs)%nat.
Proof.
  unfold correct_count. etrans; [apply length_filter|]. by rewrite length_seq.
Qed.

(** Every question counted as correct has an entry in the answer map. *)
Lemma correct_count_le_answered qs answers :
  (correct_count qs answers ≤ size answers)%nat.
Proof.
  unfold correct_count.
  set (l := filter _ _).
  assert (Hnd : NoDup (Z.of_nat <$> l)).
  { apply (NoDup_fmap_2 _), NoDup_filter, NoDup_seq. }
  rewrite <- (length_fmap Z.of_nat), <- (size_list_to_set (C := gset Z)) by done.
  rewrite <- size_dom. apply subseteq_size.
  intros k (i & -> & Hi)%elem_of_list_to_set%list_elem_of_fmap.
  apply list_elem_of_filter in Hi as [Hi _].
  unfold answered_correctly in Hi. apply elem_of_dom.
  by destruct (answers !! Z.of_nat i).
Qed.

(** ** [toFixed]: the integer chosen in step 11.a *)

Lemma denominator_pos e : 0 < denominator e.
Proof. unfold denominator. apply Z.pow_pos_nonneg; lia. Qed.

Lemma numerator_pos m e : 0 < numerator m e.
Proof.
  unfold numerator. apply Z.mul_pos_pos; [lia|]. apply Z.pow_pos_nonneg; lia.
Qed.

Lemma nearest_bounds f m e :
  let n := nearest f m e in
  let N := 10 ^ Z.of_nat f * numerator m e in
  let D := denominator e in
  2 * n * D ≤ 2 * N + D < 2 * (n + 1) * D.
Proof.
  intros n N D. pose proof (denominator_pos e) as HD. fold D in HD.
  assert (Hn : n = (2 * N + D) / (2 * D)).
  { unfold n, nearest, N, D. f_equal. lia. }
  pose proof (Z.mul_div_le (2 * N + D) (2 * D) ltac:(lia)).
  pose proof (Z.mul_succ_div_gt (2 * N + D) (2 * D) ltac:(lia)).
  rewrite <- Hn in *. lia.
Qed.

Lemma nearest_nonneg f m e : 0 ≤ nearest f m e.
Proof.
  unfold nearest. apply Z.div_pos.
  - pose proof (numerator_pos m e). pose proof (denominator_pos e).
    assert (0 < 10 ^ Z.of_nat f) by (apply Z.pow_pos_nonneg; lia). nia.
  - pose proof (denominator_pos e). lia.
Qed.

Lemma nearest_closest f m e : closest f m e (nearest f m e).
Proof.
  intros k. unfold distance.
  pose proof (nearest_bounds f m e) as H. cbn zeta in H.
  pose proof (denominator_pos e) as HD.
  set (n := nearest f m e) in *.
  set (N := 10 ^ Z.of_nat f * numerator m e) in *.
  set (D := denominator e) in *.
  assert (k ≤ n - 1 ∨ k = n ∨ n + 1 ≤ k) as [Hk|[->|Hk]] by lia.
  - assert (k * D ≤ (n - 1) * D) by nia. split; lia.
  - split; lia.
  - assert ((n + 1) * D ≤ k * D) by nia. split; lia.
Qed.

(** A finite number below [10^21] is printed from that integer. *)
Lemma Number_toFixed_finite Number_toString f x s m e :
  Prim2SF x = S754_finite s m e →
  numerator m e < 10 ^ 21 * denominator e →
  Number_toFixed Number_toString f x =
    (if s then "-" else "") +:+ fixed_digits f (nearest f m e) ∧
  0 ≤ nearest f m e ∧
  closest f m e (nearest f m e).
Proof.
  intros Hx Hlt. unfold Number_toFixed. rewrite Hx.
  rewrite (proj2 (Z.leb_gt _ _)) by done.
  auto using nearest_nonneg, nearest_closest.
Qed.

(** ** [toFixed]: the digits printed in steps 11.b-11.d *)

Lemma append_cons (x : Ascii.ascii) (a b : string) :
  String x a +:+ b = String x (a +:+ b).
Proof. reflexivity. Qed.

Lemma append_assoc (a b c : string) : (a +:+ b) +:+ c = a +:+ (b +:+ c).
Proof.
  induction a as [|x a IH]; [done|]. rewrite !append_cons. by f_equal.
Qed.

Lemma length_append (a b : string) :
  String.length (a +:+ b) = (String.length a + String.length b)%nat.
Proof.
  induction a as [|x a IH]; [done|]. rewrite append_cons. simpl. by f_equal.
Qed.

Lemma substring_whole (b : string) : String.substring 0 (String.length b) b = b.
Proof. induction b as [|x b IH]; simpl; [done | by f_equal]. Qed.

Lemma substring_append_l (a b : string) :
  String.substring 0 (String.length a) (a +:+ b) = a.
Proof.
  induction a as [|x a IH]; [by destruct b|].
  rewrite append_cons. simpl. by f_equal.
Qed.

Lemma substring_append_r (a b : string) :
  String.substring (String.length a) (String.length b) (a +:+ b) = b.
Proof.
  induction a as [|x a IH]; [apply substring_whole|].
  rewrite append_cons. simpl. apply IH.
Qed.

Lemma pretty_N_go_append (x : N) (s : string) :
  pretty_N_go x s = pretty_N_go x "" +:+ s.
Proof.
  revert s. induction (N.lt_wf_0 x) as [x _ IH]; intros s.
  destruct (decide (x = 0)%N) as [->|Hx]; [done|].
  rewrite !(pretty_N_go_step x) by lia.
  rewrite (IH (x `div` 10)%N) by (apply N.div_lt; lia).
  rewrite (IH (x `div` 10)%N ltac:(apply N.div_lt; lia) (String _ "")).
  by rewrite append_assoc.
Qed.

(** The decimal digits of a positive number: those of its tenth, then its
    last digit. *)
Lemma pretty_N_go_last (x : N) :
  (0 < x)%N →
  pretty_N_go x "" =
  pretty_N_go (x `div` 10) "" +:+ String (pretty_N_char (x `mod` 10)) "".
Proof.
  intros Hx. by rewrite pretty_N_go_step, pretty_N_go_append.
Qed.

Lemma pretty_N_go_length (x : N) :
  (0 < x)%N → (0 < String.length (pretty_N_go x ""))%nat.
Proof.
  intros Hx. rewrite pretty_N_go_last, length_append by done. cbn. lia.
Qed.

Lemma pretty_N_last (x : N) :
  (0 < x)%N →
  pretty x =
  pretty_N_go (x `div` 10) "" +:+ String (pretty_N_char (x `mod` 10)) "".
Proof.
  intros Hx. unfold pretty, pretty_N.
  rewrite decide_False by lia. by apply pretty_N_go_last.
Qed.

(** With one fraction digit, [n] is printed as the decimal digits of
    [n / 10], a point, and the digit [n mod 10]. *)
Lemma fixed_digits_1 (n : Z) :
  0 ≤ n →
  fixed_digits 1 n =
  pretty (Z.to_N n `div` 10)%N +:+ "." +:+
  String (pretty_N_char (Z.to_N n `mod` 10)%N) "".
Proof.
  intros Hn. unfold fixed_digits.
  destruct (Z.eqb_spec n 0) as [->|Hn0]; [done|].
  rewrite pretty_N_last by lia.
  set (c := String (pretty_N_char _) "").
  change (1 =? 0)%nat with false. cbv iota zeta.
  rewrite length_append. change (String.length c) with 1%nat.
  unfold pretty, pretty_N.
  destruct (decide (Z.to_N n `div` 10 = 0)%N) as [->|Hd].
  - reflexivity.
  - set (p := pretty_N_go _ "").
    assert (0 < String.length p)%nat as Hp
      by (by apply pretty_N_go_length, N.neq_0_lt_0).
    rewrite (proj2 (Nat.leb_gt _ _)) by lia.
    replace (String.length p + 1 - 1)%nat with (String.length p) by lia.
    rewrite substring_append_l.
    change 1%nat with (String.length c). by rewrite substring_append_r.
Qed.

Lemma printed_tenths_toFixed Number_toString x n :
  printed_tenths x = Some n →
  Number_toFixed Number_toString 1 x =
  pretty (Z.to_N n `div` 10)%N +:+ "." +:+
  String (pretty_N_char (Z.to_N n `mod` 10)%N) "".
Proof.
  unfold printed_tenths, Number_toFixed.
  destruct (Prim2SF x) as [s|s| |[|] m e]; try discriminate.
  - by intros [= <-].
  - destruct (Z.leb_spec (10 ^ 21 * denominator e) (numerator m e));
      [discriminate|].
    intros [= <-]. rewrite fixed_digits_1 by apply nearest_nonneg. done.
Qed.

(** Quizzes of up to 100 questions, by evaluation of all the scores. *)
Lemma score_check_100 :
  forallb (λ t, forallb (λ c, score_check c t) (seq 0 (S t))) (seq 1 100) = true.
Proof. vm_compute. reflexivity. Qed.

Lemma score_nearest_tenth Number_toString (c t : nat) :
  (0 < t ≤ 100)%nat → (c ≤ t)%nat →
  ∃ n, nearest_tenth c t n ∧
       Number_toFixed Number_toString 1
         (Number_of_nat c / Number_of_nat t * 100)%float =
       pretty (Z.to_N n `div` 10)%N +:+ "." +:+
       String (pretty_N_char (Z.to_N n `mod` 10)%N) "".
Proof.
  intros Ht Hc.
  pose proof score_check_100 as Hall.
  rewrite List.forallb_forall in Hall.
  specialize (Hall t ltac:(apply List.in_seq; lia)).
  rewrite List.forallb_forall in Hall.
  specialize (Hall c ltac:(apply List.in_seq; lia)).
  unfold score_check in Hall.
  destruct (printed_tenths _) as [n|] eqn:Hn; [|discriminate].
  exists n. split; [by apply Z.leb_le | by apply printed_tenths_toFixed].
Qed.

(** ** Banding: comparisons with 80 and 60 *)

Lemma Prim2SF_80 : Prim2SF 80 = SF80.
Proof. reflexivity. Qed.

Lemma Prim2SF_60 : Prim2SF 60 = SF60.
Proof. reflexivity. Qed.

Lemma is_nan_spec x : PrimFloat.is_nan x = negb (SFeqb (Prim2SF x) (Prim2SF x)).
Proof. unfold PrimFloat.is_nan. by rewrite FloatAxioms.eqb_spec. Qed.

Ltac compare_cases :=
  repeat match goal with
  | |- context [(?a ?= ?b)%Z] => destruct (Z.compare_spec a b)
  | |- context [Pos.compare_cont Eq ?a ?b] =>
      change (Pos.compare_cont Eq a b) with (Pos.compare a b);
      destruct (Pos.compare_spec a b)
  end.

(** [x < a] is [not (a <= x)] unless [x] is not a number. *)
Lemma SFltb_finite (sx : spec_float) (m : positive) (e : Z) :
  SFltb sx (S754_finite false m e) = true ↔
  SFleb (S754_finite false m e) sx = false ∧ SFeqb sx sx = true.
Proof.
  unfold SFleb, SFltb, SFeqb.
  destruct sx as [s|s| |s m' e']; cbn [SFcompare].
  - intuition congruence.
  - destruct s; intuition congruence.
  - intuition congruence.
  - destruct s; compare_cases; subst; try lia; intuition congruence.
Qed.

(** [a <= x] holds of numbers only. *)
Lemma SFleb_finite_number (sx : spec_float) (m : positive) (e : Z) :
  SFleb (S754_finite false m e) sx = true → SFeqb sx sx = true.
Proof.
  unfold SFleb, SFeqb.
  destruct sx as [s|s| |s m' e']; cbn [SFcompare]; try done.
  - by destruct s.
  - destruct s; [done|]. intros _. compare_cases; subst; try lia; done.
Qed.

(** [a <= x] gives [b <= x] for a [b] of smaller exponent. *)
Lemma SFleb_finite_trans (sx : spec_float) (m1 m2 : positive) (e1 e2 : Z) :
  e2 < e1 →
  SFleb (S754_finite false m1 e1) sx = true →
  SFleb (S754_finite false m2 e2) sx = true.
Proof.
  unfold SFleb. intros He.
  destruct sx as [s|s| |s m' e']; cbn [SFcompare]; try done.
  destruct s; [done|].
  compare_cases; subst; try lia; intuition congruence.
Qed.

(** ** The invariant of the session *)

Lemma phase_InProgress s :
  phase s = InProgress ↔
  questions s ≠ [] ∧ showResults s = false ∧ examStarted s = true.
Proof.
  unfold phase. destruct (questions s), (showResults s), (examStarted s);
    cbn; split; try discriminate; try done; intros (? & ? & ?); done.
Qed.

Lemma phase_cleared s :
  showResults s = false → examStarted s = false →
  phase s = match questions s with [] => Empty | _ => Ready end.
Proof.
  unfold phase. intros -> ->. by destruct (questions s).
Qed.

Lemma invariant_initial : invariant initialState.
Proof.
  split; [constructor|]. split.
  - intros k Hk. cbn in Hk. by rewrite dom_empty_L in Hk.
  - unfold position_in_range. cbn. lia.
Qed.

Lemma invariant_load qs s : Forall is_question qs → invariant (load qs s).
Proof.
  intros Hqs. split; [done|]. split.
  - intros k Hk. cbn in Hk. by rewrite dom_empty_L in Hk.
  - unfold position_in_range. cbn. lia.
Qed.

Lemma invariant_setUploadError message s :
  invariant s → invariant (setUploadError message s).
Proof. done. Qed.

Lemma read_questions_ok JSON_parse r qs :
  read_questions JSON_parse r = inr qs → Forall is_question qs.
Proof.
  destruct r as [text|]; cbn; [|discriminate].
  destruct (JSON_parse text); [|discriminate].
  by intros [_ ?]%validate_ok.
Qed.

Lemma invariant_reader_onload JSON_parse r s :
  invariant s → invariant (reader_onload JSON_parse r s).
Proof.
  intros Hs. unfold reader_onload.
  destruct (read_questions JSON_parse r) as [e|qs] eqn:Hr.
  - by apply invariant_setUploadError.
  - eapply invariant_load, read_questions_ok, Hr.
Qed.

Lemma invariant_handleFileUpload JSON_parse file s :
  invariant s → invariant (handleFileUpload JSON_parse file s).
Proof.
  destruct file as [r|]; cbn; [apply invariant_reader_onload | done].
Qed.

Lemma invariant_handleAnswerSelect answerIndex s :
  phase s = InProgress → invariant s →
  invariant (handleAnswerSelect answerIndex s).
Proof.
  intros (Hne & _ & _)%phase_InProgress (Hqs & Hkeys & Hpos).
  split; [done|]. split; [|done].
  intros k Hk. cbn in Hk. rewrite dom_insert_L in Hk.
  apply elem_of_union in Hk as [->%elem_of_singleton|Hk]; [|by apply Hkeys].
  unfold position_in_range in Hpos. cbn.
  destruct (questions s); [done|]. cbn in *. lia.
Qed.

Lemma invariant_nextQuestion s : invariant s → invariant (nextQuestion s).
Proof.
  intros (Hqs & Hkeys & Hpos). unfold nextQuestion.
  destruct (Z.ltb_spec (currentQuestion s) (Z.of_nat (length (questions s)) - 1));
    [|done].
  split; [done|]. split; [done|].
  unfold position_in_range in *. cbn. lia.
Qed.

Lemma invariant_prevQuestion s : invariant s → invariant (prevQuestion s).
Proof.
  intros (Hqs & Hkeys & Hpos). unfold prevQuestion.
  destruct (Z.ltb_spec 0 (currentQuestion s)); [|done].
  split; [done|]. split; [done|].
  unfold position_in_range in *. cbn. lia.
Qed.

Lemma invariant_restartExam s : invariant s → invariant (restartExam s).
Proof.
  intros (Hqs & _ & _). split; [done|]. split.
  - intros k Hk. cbn in Hk. by rewrite dom_empty_L in Hk.
  - unfold position_in_range. cbn. lia.
Qed.

Lemma invariant_uploadNewQuiz s : invariant (uploadNewQuiz s).
Proof. apply invariant_initial. Qed.

Create HintDb session discriminated.

#[local] Hint Resolve invariant_handleFileUpload invariant_handleAnswerSelect
  invariant_nextQuestion invariant_prevQuestion invariant_restartExam
  invariant_uploadNewQuiz : session.

Lemma invariant_handle JSON_parse a s :
  enabled a s → invariant s → invariant (handle JSON_parse a s).
Proof.
  destruct a; cbn; intros Ha Hs; auto with session.
Qed.

Lemma reachable_invariant JSON_parse s :
  reachable JSON_parse s → invariant s.
Proof.
  induction 1 as [|a s _ IH Ha]; [apply invariant_initial|].
  by apply invariant_handle.
Qed.

(** Keys inside the range of indices: no more answers than questions. *)
Lemma keys_in_range_size s :
  keys_in_range s → (size (userAnswers s) ≤ length (questions s))%nat.
Proof.
  intros Hkeys.
  set (indices := Z.of_nat <$> seq 0 (length (questions s))).
  assert (length indices = length (questions s)) as <-
    by (unfold indices; by rewrite length_fmap, length_seq).
  rewrite <- size_dom.
  rewrite <- (size_list_to_set (C := gset Z) indices)
    by apply (NoDup_fmap_2 _), NoDup_seq.
  apply subseteq_size. intros k Hk. specialize (Hkeys k Hk).
  apply elem_of_list_to_set, list_elem_of_fmap.
  exists (Z.to_nat k). split; [lia|]. apply elem_of_seq. lia.
Qed.

(** * The claims *)

Lemma answered_correctly_spec qs answers i :
  answered_correctly qs answers i = true ↔
  ∃ v q a, answers !! Z.of_nat i = Some v ∧ qs !! i = Some q ∧
           answer_of q = Some a ∧ PrimFloat.eqb v a = true.
Proof.
  unfold answered_correctly. split.
  - destruct (answers !! Z.of_nat i) as [v|]; [|done].
    destruct (qs !! i) as [q|]; cbn; [|done].
    destruct (answer_of q) as [a|] eqn:Ha; [|done]. eauto 8.
  - intros (v & q & a & -> & -> & Ha & Heq). cbn. by rewrite Ha.
Qed.

Lemma correct_incorrect_total qs answers :
  (correct_count qs answers +
   length (filter (λ i, ¬ answered_correctly qs answers i) (seq 0 (length qs))) =
   length qs)%nat.
Proof.
  unfold correct_count. rewrite <- length_app.
  rewrite (Permutation_length (filter_app_complement _ _)).
  apply length_seq.
Qed.

(** C1.  For a question set [Q] (every element passed the validator) and
    any answer map [A], [summarize] returns a summary with
    [total = length Q], [answered] = the number of keys of [A], [correct]
    = the number of indices [i] at which [A] has an entry equal to
    [Q[i].answer], and the displayed [incorrect = total - correct], which
    is the number of the remaining indices, unanswered ones included.  A
    three-question set with only question 0 answered, correctly, gives
    [correct = 1], [answered = 1], [incorrect = 2], [total = 3]. *)
Theorem summarize_counts Number_toString (Q : list json) (A : gmap Z float) :
  Forall is_question Q →
  ∃ r, summarize Number_toString Q A = inr r ∧
    totalQuestions r = length Q ∧
    answeredQuestions r = size (dom A) ∧
    correctAnswers r =
      length (filter (λ i, answered_correctly Q A i) (seq 0 (length Q))) ∧
    incorrect r = Z.of_nat (totalQuestions r) - Z.of_nat (correctAnswers r) ∧
    incorrect r =
      Z.of_nat (length (filter (λ i, ¬ answered_correctly Q A i)
                          (seq 0 (length Q)))) ∧
    (∀ q0 q1 q2 v a,
       Q = [q0; q1; q2] → A = {[ 0 := v ]} →
       answer_of q0 = Some a → PrimFloat.eqb v a = true →
       correctAnswers r = 1%nat ∧ answeredQuestions r = 1%nat ∧
       incorrect r = 2 ∧ totalQuestions r = 3%nat).
Proof.
  intros HQ. eexists. split; [by apply summarize_questions|].
  unfold incorrect. cbn [totalQuestions answeredQuestions correctAnswers].
  pose proof (correct_incorrect_total Q A) as Hsum.
  fold (correct_count Q A).
  split_and!; [done|by rewrite size_dom|done|done|lia|].
  intros q0 q1 q2 v a -> -> Ha Heq.
  assert (correct_count [q0; q1; q2] {[0 := v]} = 1%nat) as ->.
  { unfold correct_count. cbn [length seq].
    rewrite !filter_cons, filter_nil.
    rewrite decide_True; last first.
    { apply Is_true_true, answered_correctly_spec.
      exists v, q0, a. by rewrite lookup_singleton_eq. }
    assert (∀ i, (0 < i)%nat →
              ¬ answered_correctly [q0; q1; q2] {[0 := v]} i) as Hnone.
    { intros i Hi. unfold answered_correctly.
      rewrite lookup_singleton_ne by lia. by intros []. }
    rewrite !decide_False by (apply Hnone; lia). done. }
  rewrite map_size_singleton. cbn. done.
Qed.

(** Three questions, the first answered with its [answer]. *)
Lemma summarize_counts_witness :
  ∃ r, summarize no_toString [question_1; question_2; question_2]
         {[ 0 := 1%float ]} = inr r ∧
       correctAnswers r = 1%nat ∧ answeredQuestions r = 1%nat ∧
       incorrect r = 2 ∧ totalQuestions r = 3%nat.
Proof.
  assert (Forall is_question [question_1; question_2; question_2]) as HQ
    by (repeat constructor).
  destruct (summarize_counts no_toString _ {[ 0 := 1%float ]} HQ)
    as (r & Hr & _ & _ & _ & _ & _ & Hthree).
  exists r. split; [exact Hr|].
  apply (Hthree question_1 question_2 question_2 1%float 1%float);
    reflexivity.
Defined.

(** C2.  On the array [[question_1, null]] the first element is valid and
    the second one has no [question]; validation stops there, but with the
    [TypeError] of the property access on [null], whose message names no
    index, and not with the error "Invalid question structure at index 1"
    that a malformed element of any other kind raises. *)
Theorem validate_null_names_no_index :
  is_question question_1 ∧
  validate (JArr [question_1; JNull]) =
    inl (TypeError "Cannot read properties of null (reading 'question')") ∧
  validate (JArr [question_1; JNull]) ≠
    inl (Error ("Invalid question structure at index " +:+ pretty 1%nat)) ∧
  validate (JArr [question_1; JNum 5]) =
    inl (Error ("Invalid question structure at index " +:+ pretty 1%nat)).
Proof.
  split_and!; [reflexivity|reflexivity|discriminate|reflexivity].
Qed.

(** C3 (amended).  From any session state, an upload whose validation
    succeeds with the question set [S] installs [S], empties the answer
    map and puts the position at 0; the screen is then the pre-exam one
    (phase [Ready]) when [S] has a question, and the upload screen (phase
    [Empty]) when [S] is the empty array. *)
Theorem load_supersedes JSON_parse (r : reader_result) (s : State)
    (S : list json) :
  read_questions JSON_parse r = inr S →
  let s' := reader_onload JSON_parse r s in
  s' = load S s ∧
  questions s' = S ∧
  userAnswers s' = ∅ ∧
  currentQuestion s' = 0 ∧
  phase s' = match S with [] => Empty | _ => Ready end.
Proof.
  intros Hr s'. unfold s', reader_onload. rewrite Hr.
  split_and!; try reflexivity. by apply phase_cleared.
Qed.

(** A new quiz uploaded during an exam with one answer given. *)
Lemma load_supersedes_witness :
  phase sample_session = InProgress ∧
  let s' := reader_onload sample_parse (ResultString sample_text) sample_session in
  length (questions s') = 1%nat ∧ userAnswers s' = ∅ ∧
  currentQuestion s' = 0 ∧ phase s' = Ready.
Proof.
  split; [reflexivity|].
  pose proof (load_supersedes sample_parse (ResultString sample_text)
                sample_session _ eq_refl) as (_ & Hq & Ha & Hc & Hp).
  cbv zeta. rewrite Hq. auto.
Defined.

(** The empty array passes validation and loading it leaves the upload
    screen in place: the phase is [Empty], not [Ready]. *)
Lemma load_empty_not_Ready :
  validate (JArr []) = inr [] ∧
  phase (load [] sample_session) = Empty ∧
  phase (load [] sample_session) ≠ Ready.
Proof. split_and!; [reflexivity|reflexivity|discriminate]. Qed.

(** C6.  An upload that fails (the content is not a string, [JSON.parse]
    throws, or validation throws) records the message and leaves the
    question set, the answer map, the position and the phase as they
    were. *)
Theorem failed_upload_keeps_state JSON_parse (r : reader_result) (s : State)
    (e : exn) :
  read_questions JSON_parse r = inl e →
  let s' := reader_onload JSON_parse r s in
  s' = setUploadError upload_message s ∧
  questions s' = questions s ∧
  userAnswers s' = userAnswers s ∧
  currentQuestion s' = currentQuestion s ∧
  phase s' = phase s ∧
  uploadError s' = upload_message.
Proof.
  intros Hr s'. unfold s', reader_onload. rewrite Hr. by split_and!.
Qed.

(** During an exam: a content that is not a string, a text that does not
    parse, a text that is not an array, an array with a [null]. *)
Lemma failed_upload_keeps_state_witness :
  let s1 := reader_onload sample_parse ResultOther sample_session in
  let s2 := reader_onload sample_parse (ResultString "{") sample_session in
  let s3 := reader_onload sample_parse (ResultString "{}") sample_session in
  let s4 := reader_onload sample_parse (ResultString "[null]") sample_session in
  (questions s1 = sample_quiz ∧ phase s1 = InProgress) ∧
  (questions s2 = sample_quiz ∧ phase s2 = InProgress) ∧
  (questions s3 = sample_quiz ∧ phase s3 = InProgress) ∧
  (questions s4 = sample_quiz ∧ phase s4 = InProgress).
Proof.
  pose proof (failed_upload_keeps_state sample_parse ResultOther
                sample_session _ eq_refl) as (_ & H1 & _ & _ & P1 & _).
  pose proof (failed_upload_keeps_state sample_parse (ResultString "{")
                sample_session _ eq_refl) as (_ & H2 & _ & _ & P2 & _).
  pose proof (failed_upload_keeps_state sample_parse (ResultString "{}")
                sample_session _ eq_refl) as (_ & H3 & _ & _ & P3 & _).
  pose proof (failed_upload_keeps_state sample_parse (ResultString "[null]")
                sample_session _ eq_refl) as (_ & H4 & _ & _ & P4 & _).
  cbv zeta. rewrite H1, H2, H3, H4, P1, P2, P3, P4. by split_and!.
Defined.

(** C7.  During an exam, selecting a choice stores it at the current
    position, whatever was there and whatever the number is, and changes
    no other entry of the answer map, nor the question set, the position
    or the phase. *)
Theorem select_answer_frame (s : State) (choiceIndex : float) :
  phase s = InProgress →
  let p := currentQuestion s in
  let s' := handleAnswerSelect choiceIndex s in
  userAnswers s' !! p = Some choiceIndex ∧
  (∀ k, k ≠ p → userAnswers s' !! k = userAnswers s !! k) ∧
  questions s' = questions s ∧
  currentQuestion s' = p ∧
  phase s' = phase s.
Proof.
  intros _ p s'. split_and!; try reflexivity.
  - apply lookup_insert_eq.
  - intros k Hk. by apply lookup_insert_ne.
Qed.

(** On the second question of [sample_quiz], the choice 7, which no
    question offers. *)
Lemma select_answer_frame_witness :
  let s' := handleAnswerSelect 7%float sample_session in
  userAnswers s' !! 1 = Some 7%float ∧
  userAnswers s' !! 0 = Some 1%float ∧
  phase s' = InProgress.
Proof.
  pose proof (select_answer_frame sample_session 7%float eq_refl)
    as (H1 & Hk & _ & _ & Hp).
  cbv zeta. split_and!; [exact H1| |exact Hp].
  by rewrite (Hk 0).
Defined.

(** C8.  During an exam on [N] questions, [next] adds one to a position
    below [N - 1] and otherwise changes nothing; [previous] subtracts one
    from a position above 0 and otherwise changes nothing; a position in
    [[0, N-1]] stays there. *)
Theorem navigation_bounds (s : State) :
  phase s = InProgress →
  let N := Z.of_nat (length (questions s)) in
  let p := currentQuestion s in
  (p < N - 1 → nextQuestion s = setCurrentQuestion (p + 1) s) ∧
  (¬ p < N - 1 → nextQuestion s = s) ∧
  (0 < p → prevQuestion s = setCurrentQuestion (p - 1) s) ∧
  (¬ 0 < p → prevQuestion s = s) ∧
  (0 ≤ p ≤ N - 1 →
   0 ≤ currentQuestion (nextQuestion s) ≤ N - 1 ∧
   0 ≤ currentQuestion (prevQuestion s) ≤ N - 1).
Proof.
  intros _ N p. unfold nextQuestion, prevQuestion. fold N p.
  destruct (Z.ltb_spec p (N - 1)), (Z.ltb_spec 0 p);
    split_and!; intros; cbn; fold p; try done; lia.
Qed.

(** On the last question of [sample_quiz]: [next] is a no-op, [previous]
    goes back to question 0, where [previous] is a no-op. *)
Lemma navigation_bounds_witness :
  nextQuestion sample_session = sample_session ∧
  currentQuestion (prevQuestion sample_session) = 0 ∧
  prevQuestion (prevQuestion sample_session) = prevQuestion sample_session.
Proof.
  pose proof (navigation_bounds sample_session eq_refl)
    as (_ & Hlast & Hback & _ & _).
  pose proof (navigation_bounds (prevQuestion sample_session) eq_refl)
    as (_ & _ & _ & Hfirst & _).
  split_and!.
  - apply Hlast. cbn. lia.
  - rewrite Hback by (cbn; lia). reflexivity.
  - apply Hfirst. cbn. lia.
Defined.

(** [restart] on any state, also one that the results screen cannot
    show: the answer map is emptied, the position put at 0 and the
    question set kept; the phase follows from the question set. *)
Lemma restart_keeps_questions (s : State) :
  let s' := restartExam s in
  userAnswers s' = ∅ ∧
  currentQuestion s' = 0 ∧
  questions s' = questions s ∧
  phase s' = match questions s with [] => Empty | _ => Ready end.
Proof.
  cbv zeta. split_and!; try reflexivity.
  by apply (phase_cleared (restartExam s)).
Qed.

(** With no question set loaded, [restart] stays on the upload screen. *)
Lemma restart_empty_not_Ready :
  phase (restartExam initialState) = Empty ∧
  phase (restartExam initialState) ≠ Ready.
Proof. split; [reflexivity|discriminate]. Qed.

(** C9.  For every session state with a question set loaded (restart is
    offered on the results screen, which shows only then), [restart]
    clears the answer map to empty, resets the position to 0 and moves
    the phase to [Ready], and the question set after it is the one
    before it, element for element. *)
Theorem restart_to_Ready (s : State) :
  questions s ≠ [] →
  let s' := restartExam s in
  userAnswers s' = ∅ ∧
  currentQuestion s' = 0 ∧
  phase s' = Ready ∧
  questions s' = questions s ∧
  (∀ i, questions s' !! i = questions s !! i).
Proof.
  intros Hne. destruct (restart_keeps_questions s) as (Ha & Hc & Hq & Hp).
  cbv zeta in *. split_and!; [done|done| |done|by rewrite Hq].
  rewrite Hp. by destruct (questions s).
Qed.

(** On the results screen of [sample_quiz], finished with one answer. *)
Lemma restart_to_Ready_witness :
  phase (finishExam sample_session) = Results ∧
  let s' := restartExam (finishExam sample_session) in
  userAnswers s' = ∅ ∧ currentQuestion s' = 0 ∧ phase s' = Ready ∧
  questions s' = sample_quiz.
Proof.
  split; [reflexivity|].
  destruct (restart_to_Ready (finishExam sample_session) ltac:(discriminate))
    as (Ha & Hc & Hp & Hq & _).
  cbv zeta in *. by split_and!.
Defined.

(** C4.  For a question set [Q] and any answer map, the score is the
    number 0 when [Q] is empty, and otherwise the string that
    [toFixed(1)] prints for the binary64 value of
    [correct / total * 100].  For a finite value [m * 2^e] below [10^21]
    that string is the sign, the decimal digits of [n / 10], a point and
    the digit [n mod 10], where [n / 10] is the closest number with one
    decimal to [m * 2^e], the larger one at a tie; a zero prints as
    ["0.0"].  With up to 100 questions the printed number is also a
    closest one to the exact quotient [100 * correct / total].  The two
    questions of [sample_quiz] with the answers [{0: 1, 1: 0}] give
    [total = 2], [answered = 2], [correct = 1] and the score ["50.0"]. *)
Theorem score_percent Number_toString (Q : list json) (A : gmap Z float) :
  Forall is_question Q →
  (∃ r, summarize Number_toString Q A = inr r ∧
     score r =
       match Q with
       | [] => Num 0%float
       | _ => Str (Number_toFixed Number_toString 1
                     (Number_of_nat (correctAnswers r) /
                      Number_of_nat (totalQuestions r) * 100)%float)
       end ∧
     score r =
       scorePercent Number_toString (correctAnswers r) (totalQuestions r) ∧
     (correctAnswers r ≤ totalQuestions r)%nat ∧
     totalQuestions r = length Q) ∧
  (∀ x s m e,
     Prim2SF x = S754_finite s m e →
     numerator m e < 10 ^ 21 * denominator e →
     let n := nearest 1 m e in
     Number_toFixed Number_toString 1 x =
       (if s then "-" else "") +:+
       pretty (Z.to_N n `div` 10)%N +:+ "." +:+
       String (pretty_N_char (Z.to_N n `mod` 10)%N) "" ∧
     closest 1 m e n) ∧
  (∀ x s, Prim2SF x = S754_zero s →
     Number_toFixed Number_toString 1 x = "0.0") ∧
  (∀ c t : nat, (0 < t ≤ 100)%nat → (c ≤ t)%nat →
     ∃ n, nearest_tenth c t n ∧
          scorePercent Number_toString c t =
          Str (pretty (Z.to_N n `div` 10)%N +:+ "." +:+
               String (pretty_N_char (Z.to_N n `mod` 10)%N) "")) ∧
  summarize Number_toString sample_quiz {[ 0 := 1%float; 1 := 0%float ]} =
    inr (mkSummary 2 2 1 (Str "50.0")).
Proof.
  intros HQ. split_and!.
  - eexists. split; [by apply summarize_questions|].
    cbn [score correctAnswers totalQuestions].
    split_and!; [|done|apply correct_count_le_total|done].
    unfold scorePercent. by destruct Q.
  - intros x s m e Hx Hlt n.
    destruct (Number_toFixed_finite Number_toString 1 x s m e Hx Hlt)
      as (-> & Hn & Hclosest).
    split; [|done]. by rewrite fixed_digits_1.
  - intros x s Hx. unfold Number_toFixed. by rewrite Hx.
  - intros c t Ht Hc.
    destruct (score_nearest_tenth Number_toString c t Ht Hc) as (n & Hn & Hs).
    exists n. split; [done|]. unfold scorePercent.
    rewrite (proj2 (Nat.ltb_lt 0 t)) by lia. by rewrite Hs.
  - reflexivity.
Qed.

(** The example of the claim. *)
Lemma score_percent_witness :
  ∃ r, summarize no_toString sample_quiz {[ 0 := 1%float; 1 := 0%float ]} = inr r ∧
       score r = Str "50.0".
Proof.
  assert (Forall is_question sample_quiz) as HQ by (repeat constructor).
  destruct (score_percent no_toString sample_quiz
              {[ 0 := 1%float; 1 := 0%float ]} HQ)
    as ((r & Hr & Hs & _) & _ & _ & _ & Hex).
  exists r. split; [exact Hr|].
  rewrite Hex in Hr. by injection Hr as <-.
Defined.

(** The exact quotient of 3 right answers out of 2000 is 0.15, halfway
    between 0.1 and 0.2; its binary64 value lies below and prints as 0.1. *)
Remark score_tie_below :
  scorePercent no_toString 3 2000 = Str "0.1".
Proof. reflexivity. Qed.

(** [getScoreColor] on any binary64 value, [NaN] included, which falls
    in the last branch; a string is classified as the number that
    [parseFloat] reads from it. *)
Lemma score_bands parseFloat (x : float) :
  let color := getScoreColor parseFloat (Num x) in
  (color = "text-green-600" ↔ (80 <=? x)%float = true) ∧
  (color = "text-yellow-600" ↔
     (60 <=? x)%float = true ∧ (x <? 80)%float = true) ∧
  (color = "text-red-600" ↔
     (x <? 60)%float = true ∨ PrimFloat.is_nan x = true) ∧
  (∀ text, getScoreColor parseFloat (Str text) =
           getScoreColor parseFloat (Num (parseFloat text))) ∧
  getScoreColor parseFloat (Num 79.99%float) = "text-yellow-600" ∧
  getScoreColor parseFloat (Num 80.0%float) = "text-green-600" ∧
  getScoreColor parseFloat (Num 59.99%float) = "text-red-600" ∧
  getScoreColor parseFloat (Num 60.0%float) = "text-yellow-600".
Proof.
  cbv zeta. unfold getScoreColor.
  rewrite !FloatAxioms.leb_spec, !FloatAxioms.ltb_spec, is_nan_spec.
  rewrite Prim2SF_80, Prim2SF_60.
  pose proof (SFltb_finite (Prim2SF x) 5629499534213120 (-46)) as H80.
  pose proof (SFltb_finite (Prim2SF x) 8444249301319680 (-47)) as H60.
  pose proof (SFleb_finite_trans (Prim2SF x) 5629499534213120
                8444249301319680 (-46) (-47) ltac:(lia)) as Htrans.
  pose proof (SFleb_finite_number (Prim2SF x) 8444249301319680 (-47)) as Hnum.
  fold SF80 in H80, Htrans. fold SF60 in H60, Htrans, Hnum.
  split_and!; try reflexivity.
  - destruct (SFleb SF80 (Prim2SF x)), (SFleb SF60 (Prim2SF x));
      split; intros; done.
  - rewrite H80.
    destruct (SFleb SF80 (Prim2SF x)) eqn:E80, (SFleb SF60 (Prim2SF x)) eqn:E60,
      (SFeqb (Prim2SF x) (Prim2SF x)); intuition congruence.
  - rewrite H60.
    destruct (SFleb SF80 (Prim2SF x)) eqn:E80, (SFleb SF60 (Prim2SF x)) eqn:E60,
      (SFeqb (Prim2SF x) (Prim2SF x)); cbn; intuition congruence.
Qed.

(** [NaN], which is no score, is classified low although [NaN < 60] is
    false. *)
Lemma nan_is_low :
  getScoreColor (λ _, nan) (Num nan) = "text-red-600" ∧
  (nan <? 60)%float = false.
Proof. split; reflexivity. Qed.

(** C5.  For every score [s] (a number: [getScoreColor] is given 0 or
    what [toFixed(1)] printed, never [NaN]), the class is the green one
    ("high") exactly when [s >= 80], the yellow one ("medium") exactly
    when [60 <= s < 80], and the red one ("low") exactly when [s < 60];
    a score given as a string is classified as the number [parseFloat]
    reads from it.  79.99 is medium, 80.0 is high, 59.99 is low and 60.0
    is medium. *)
Theorem score_bands_of_scores parseFloat (s : float) :
  PrimFloat.is_nan s = false →
  let classify := getScoreColor parseFloat in
  (classify (Num s) = "text-green-600" ↔ (80 <=? s)%float = true) ∧
  (classify (Num s) = "text-yellow-600" ↔
     (60 <=? s)%float = true ∧ (s <? 80)%float = true) ∧
  (classify (Num s) = "text-red-600" ↔ (s <? 60)%float = true) ∧
  (∀ text, classify (Str text) = classify (Num (parseFloat text))) ∧
  classify (Num 79.99%float) = "text-yellow-600" ∧
  classify (Num 80.0%float) = "text-green-600" ∧
  classify (Num 59.99%float) = "text-red-600" ∧
  classify (Num 60.0%float) = "text-yellow-600".
Proof.
  intros Hs classify.
  destruct (score_bands parseFloat s)
    as (Hhigh & Hmedium & Hlow & Hstr & H1 & H2 & H3 & H4).
  unfold classify. split_and!; try done.
  rewrite Hlow. split; [|by left].
  intros [H|H]; [done|congruence].
Qed.

(** The scores 79.99, 80, 59.99 and 60, none of them [NaN]. *)
Lemma score_bands_of_scores_witness :
  let classify := getScoreColor (λ _, 0%float) in
  (classify (Num 79.99%float) = "text-yellow-600" ↔
     (60 <=? 79.99)%float = true ∧ (79.99 <? 80)%float = true) ∧
  (classify (Num 80%float) = "text-green-600" ↔ (80 <=? 80)%float = true) ∧
  (classify (Num 59.99%float) = "text-red-600" ↔ (59.99 <? 60)%float = true) ∧
  (classify (Num 60%float) = "text-yellow-600" ↔
     (60 <=? 60)%float = true ∧ (60 <? 80)%float = true).
Proof.
  pose proof (score_bands_of_scores (λ _, 0%float) 79.99%float eq_refl)
    as (_ & H1 & _).
  pose proof (score_bands_of_scores (λ _, 0%float) 80%float eq_refl)
    as (H2 & _).
  pose proof (score_bands_of_scores (λ _, 0%float) 59.99%float eq_refl)
    as (_ & _ & H3 & _).
  pose proof (score_bands_of_scores (λ _, 0%float) 60%float eq_refl)
    as (_ & H4 & _).
  cbv zeta in *. by split_and!.
Defined.

(** C10.  In every state reached from the initial one by uploads, start,
    selections made on the exam screen, next, previous, finish, restart
    and reset, the keys of the answer map lie in [[0, N-1]] for [N] the
    number of questions, and [calculateResults] returns a summary with
    [0 <= correct <= answered <= total]. *)
Theorem reachable_scores JSON_parse Number_toString (s : State) :
  reachable JSON_parse s →
  (∀ k : Z, k ∈ dom (userAnswers s) →
     0 ≤ k ≤ Z.of_nat (length (questions s)) - 1) ∧
  ∃ r, calculateResults Number_toString s = inr r ∧
       (0 ≤ correctAnswers r)%nat ∧
       (correctAnswers r ≤ answeredQuestions r)%nat ∧
       (answeredQuestions r ≤ totalQuestions r)%nat.
Proof.
  intros (HQ & Hkeys & _)%reachable_invariant. split; [exact Hkeys|].
  eexists. split; [by apply summarize_questions|]. cbn.
  split_and!; [lia|apply correct_count_le_answered|by apply keys_in_range_size].
Qed.

(** A run: upload, start, answer, finish. *)
Lemma reachable_scores_witness :
  let s := handle sample_parse Finish
             (handle sample_parse (SelectAnswer 0%float)
               (handle sample_parse Start
                 (handle sample_parse (Load (Some (ResultString sample_text)))
                    initialState))) in
  phase s = Results ∧
  ∃ r, calculateResults no_toString s = inr r ∧
       (correctAnswers r ≤ answeredQuestions r)%nat ∧
       (answeredQuestions r ≤ totalQuestions r)%nat.
Proof.
  cbv zeta. split; [reflexivity|].
  assert (reachable sample_parse
            (handle sample_parse Finish
              (handle sample_parse (SelectAnswer 0%float)
                (handle sample_parse Start
                  (handle sample_parse (Load (Some (ResultString sample_text)))
                     initialState))))) as Hreach.
  { apply reachable_step; [|exact I].
    apply reachable_step; [|reflexivity].
    apply reachable_step; [|exact I].
    apply reachable_step; [|exact I].
    apply reachable_initial. }
  destruct (reachable_scores sample_parse no_toString _ Hreach)
    as (_ & r & Hr & _ & H1 & H2).
  exists r. split; [exact Hr|]. split; [exact H1|exact H2].
Defined.

(** The condition on selections is needed: one made before any upload
    stores an answer to a question that does not exist. *)
Remark select_before_upload :
  ¬ keys_in_range (handleAnswerSelect 0%float initialState).
Proof.
  intros H. specialize (H 0). cbn in H.
  rewrite dom_insert_L in H. specialize (H ltac:(set_solver)). lia.
Qed.

(** * Further properties *)

(** ** The validator, completely *)

Lemma is_question_not_malformed q : is_question q → malformed q ≠ inr true.
Proof. unfold is_question. by intros ->. Qed.

Lemma malformed_cases q :
  q = JNull ∨ malformed q = inr true ∨ is_question q.
Proof.
  assert (q = JNull ∨ q ≠ JNull) as [->|Hq]
    by (destruct q; (by left) || (by right)).
  { by left. }
  right. destruct (malformed_not_null q Hq) as [[|] Hb];
    [by left | by right].
Qed.

(** The first element that is not a question, if there is one. *)
Lemma first_not_question items :
  Forall is_question items ∨
  ∃ pre q post, items = pre ++ q :: post ∧ Forall is_question pre ∧
                (q = JNull ∨ malformed q = inr true).
Proof.
  induction items as [|x items IH]; [by left|].
  destruct (malformed_cases x) as [Hx|[Hx|Hx]].
  - right. exists [], x, items. by split_and!; [|constructor|left].
  - right. exists [], x, items. by split_and!; [|constructor|right].
  - destruct IH as [IH|(pre & q & post & -> & Hpre & Hq)].
    + left. by constructor.
    + right. exists (x :: pre), q, post. split_and!; [done|by constructor|done].
Qed.

(** [validate] accepts exactly the arrays whose elements are all objects
    with a truthy [question], an array [choices] and a number [answer],
    and returns the elements as they are. *)
Theorem validate_accepts (jsonData : json) (qs : list json) :
  validate jsonData = inr qs ↔
  jsonData = JArr qs ∧
  ∀ q, q ∈ qs →
    ∃ props items a,
      q = JObj props ∧
      truthy (own_property props "question") = true ∧
      own_property props "choices" = Some (JArr items) ∧
      own_property props "answer" = Some (JNum a).
Proof.
  rewrite validate_ok, Forall_forall.
  split; intros [-> H]; (split; [done|]); intros q Hq;
    by apply is_question_fields, H.
Qed.

(** An array is rejected exactly when it has a first element that is not
    a question; the error is then decided by that element alone: the
    [TypeError] of the property access when it is [null], and otherwise
    the error that names its index. *)
Theorem validate_rejects (items : list json) (e : exn) :
  validate (JArr items) = inl e ↔
  ∃ pre q post,
    items = pre ++ q :: post ∧ Forall is_question pre ∧
    ((q = JNull ∧
      e = TypeError "Cannot read properties of null (reading 'question')") ∨
     (malformed q = inr true ∧
      e = Error ("Invalid question structure at index " +:+ pretty (length pre)))).
Proof.
  split.
  - intros He. destruct (first_not_question items)
      as [Hall|(pre & q & post & -> & Hpre & Hq)].
    + assert (validate (JArr items) = inr items) as Hok
        by (by apply validate_ok).
      congruence.
    + exists pre, q, post. split_and!; [done..|].
      destruct Hq as [->|Hq].
      * left. split; [done|]. rewrite validate_null_element in He by done.
        congruence.
      * right. split; [done|]. rewrite validate_fail_fast in He by done.
        congruence.
  - intros (pre & q & post & -> & Hpre & [[-> ->]|[Hq ->]]).
    + by apply validate_null_element.
    + by apply validate_fail_fast.
Qed.

(** ** Uploads *)

Lemma upload_message_nonempty : upload_message ≠ "".
Proof. discriminate. Qed.

(** The error banner is empty after an upload exactly when the upload
    succeeded; a successful upload leaves nothing of the state before it,
    and repeating a failed upload changes nothing more. *)
Theorem upload_outcome JSON_parse (r : reader_result) (s : State) :
  (uploadError (reader_onload JSON_parse r s) = "" ↔
   ∃ qs, read_questions JSON_parse r = inr qs) ∧
  (∀ qs s', read_questions JSON_parse r = inr qs →
            reader_onload JSON_parse r s = reader_onload JSON_parse r s' ∧
            reader_onload JSON_parse r s = mkState qs 0 ∅ false false "") ∧
  (∀ e, read_questions JSON_parse r = inl e →
        reader_onload JSON_parse r (reader_onload JSON_parse r s) =
        reader_onload JSON_parse r s).
Proof.
  unfold reader_onload.
  destruct (read_questions JSON_parse r) as [e|qs]; split_and!.
  - split; [intros H; by destruct upload_message_nonempty | by intros [? ?]].
  - by intros.
  - by intros.
  - split; [eauto | done].
  - intros ? s' [= <-]. done.
  - by intros.
Qed.

(** ** Answers *)

(** Selecting on a question without an answer adds one entry to the
    answer map and selecting on an answered question adds none; of two
    selections in a row only the second one counts. *)
Theorem select_counts_once (s : State) (v v' : float) :
  let s' := handleAnswerSelect v s in
  size (userAnswers s') =
    match userAnswers s !! currentQuestion s with
    | Some _ => size (userAnswers s)
    | None => S (size (userAnswers s))
    end ∧
  handleAnswerSelect v' s' = handleAnswerSelect v' s ∧
  size (userAnswers (handleAnswerSelect v' s')) = size (userAnswers s').
Proof.
  cbv zeta. unfold handleAnswerSelect, setUserAnswers. cbn.
  rewrite insert_insert_eq, !map_size_insert.
  by destruct (userAnswers s !! currentQuestion s).
Qed.

Lemma array_get_Some {A} (items : list A) (index : Z) (x : A) :
  array_get items index = Some x ↔
  0 ≤ index ∧ items !! Z.to_nat index = Some x.
Proof.
  unfold array_get. destruct (Z.ltb_spec index 0); split.
  - discriminate.
  - intros [? _]. lia.
  - done.
  - by intros [_ ?].
Qed.

Lemma array_get_in_range {A} (items : list A) (index : Z) :
  is_Some (array_get items index) ↔ 0 ≤ index < Z.of_nat (length items).
Proof.
  split.
  - intros [x [H0 Hx]%array_get_Some]. apply lookup_lt_Some in Hx. lia.
  - intros [H0 Hlt].
    destruct (lookup_lt_is_Some_2 items (Z.to_nat index)) as [x Hx]; [lia|].
    exists x. by apply array_get_Some.
Qed.

(** A selection on the current question makes it count as correct
    exactly when the selected number equals its [answer], whatever was
    stored before, and leaves the verdict on every other question as it
    was.  Hence, when no index of a choice equals the [answer], the
    question does not count as correct after a click on any of its
    choice buttons. *)
Theorem select_scores (s : State) (q : json) (a v : float) :
  array_get (questions s) (currentQuestion s) = Some q →
  answer_of q = Some a →
  let s' := handleAnswerSelect v s in
  answered_correctly (questions s') (userAnswers s')
    (Z.to_nat (currentQuestion s)) = PrimFloat.eqb v a ∧
  (∀ i, i ≠ Z.to_nat (currentQuestion s) →
     answered_correctly (questions s') (userAnswers s') i =
     answered_correctly (questions s) (userAnswers s) i) ∧
  (∀ items,
     get q "choices" = inr (Some (JArr items)) →
     (∀ i, (i < length items)%nat →
           PrimFloat.eqb (Number_of_nat i) a = false) →
     ∀ i button, imap (choiceButton s) items !! i = Some button →
       ∃ w, buttonOnClick button = SelectAnswer w ∧
            answered_correctly (questions s)
              (userAnswers (handleAnswerSelect w s))
              (Z.to_nat (currentQuestion s)) = false).
Proof.
  intros [H0 Hq]%array_get_Some Ha. cbv zeta.
  assert (∀ w, answered_correctly (questions s)
                 (userAnswers (handleAnswerSelect w s))
                 (Z.to_nat (currentQuestion s)) = PrimFloat.eqb w a) as Hsel.
  { intros w. unfold answered_correctly, handleAnswerSelect. cbn.
    rewrite Z2Nat.id by done. rewrite lookup_insert_eq, Hq. cbn.
    by rewrite Ha. }
  split_and!.
  - apply Hsel.
  - intros i Hi. unfold answered_correctly, handleAnswerSelect. cbn.
    by rewrite lookup_insert_ne by lia.
  - intros items _ Hnone i button Hb. rewrite list_lookup_imap in Hb.
    destruct (items !! i) as [choice|] eqn:Hi; [|done].
    injection Hb as <-. exists (Number_of_nat i). split; [done|].
    rewrite Hsel. apply Hnone. by eapply lookup_lt_Some.
Qed.

(** The second question of [sample_quiz] has the answer 1: the choice 1
    scores, and a number that is no choice does not.  The question of
    [unanswerable_session] has two choices and the answer 7: neither
    button scores. *)
Lemma select_scores_witness :
  let right := handleAnswerSelect 1%float sample_session in
  let wrong := handleAnswerSelect 7%float sample_session in
  answered_correctly (questions right) (userAnswers right) 1 = true ∧
  answered_correctly (questions wrong) (userAnswers wrong) 1 = false ∧
  answered_correctly (questions wrong) (userAnswers wrong) 0 = true ∧
  ∀ i button,
    imap (choiceButton unanswerable_session)
      [JStr "a"; JStr "b"] !! i = Some button →
    ∃ w, buttonOnClick button = SelectAnswer w ∧
         answered_correctly (questions unanswerable_session)
           (userAnswers (handleAnswerSelect w unanswerable_session)) 0 = false.
Proof.
  pose proof (select_scores sample_session question_2 1%float 1%float
                eq_refl eq_refl) as (H1 & _ & _).
  pose proof (select_scores sample_session question_2 1%float 7%float
                eq_refl eq_refl) as (H7 & Hother & _).
  pose proof (select_scores unanswerable_session question_unanswerable
                7%float 0%float eq_refl eq_refl) as (_ & _ & Hbuttons).
  cbv zeta. split_and!.
  - exact H1.
  - exact H7.
  - rewrite (Hother 0%nat); [reflexivity | discriminate].
  - apply (Hbuttons [JStr "a"; JStr "b"] eq_refl).
    intros [|[|i]] Hi; [reflexivity|reflexivity|].
    exfalso. cbn in Hi. lia.
Defined.

(** ** Navigation and restart *)

Lemma setCurrentQuestion_same s : setCurrentQuestion (currentQuestion s) s = s.
Proof. by destruct s. Qed.

Lemma setCurrentQuestion_twice v w s :
  setCurrentQuestion v (setCurrentQuestion w s) = setCurrentQuestion v s.
Proof. done. Qed.

(** Below the last question, [next] followed by [previous] gives the
    state back, and so does [previous] followed by [next] from the
    question reached; neither touches the answers. *)
Theorem next_previous_round_trip (s : State) :
  0 ≤ currentQuestion s < Z.of_nat (length (questions s)) - 1 →
  prevQuestion (nextQuestion s) = s ∧
  nextQuestion (prevQuestion (nextQuestion s)) = nextQuestion s ∧
  userAnswers (nextQuestion s) = userAnswers s.
Proof.
  intros Hp.
  assert (nextQuestion s = setCurrentQuestion (currentQuestion s + 1) s) as Hn.
  { unfold nextQuestion. by rewrite (proj2 (Z.ltb_lt _ _)) by lia. }
  assert (prevQuestion (nextQuestion s) = s) as Hpn.
  { rewrite Hn. unfold prevQuestion. cbn [currentQuestion setCurrentQuestion].
    rewrite (proj2 (Z.ltb_lt _ _)) by lia.
    rewrite setCurrentQuestion_twice.
    replace (currentQuestion s + 1 - 1) with (currentQuestion s) by lia.
    apply setCurrentQuestion_same. }
  split_and!; [done| |by rewrite Hn].
  by rewrite Hpn.
Qed.

Lemma next_previous_round_trip_witness :
  let first := setCurrentQuestion 0 sample_session in
  prevQuestion (nextQuestion first) = first ∧
  currentQuestion (nextQuestion first) = 1.
Proof.
  pose proof (next_previous_round_trip (setCurrentQuestion 0 sample_session))
    as H.
  cbv zeta. split; [apply H; cbn; lia | reflexivity].
Defined.

(** [restart] forgets whatever was done during the exam: after a start,
    a selection, a move, a finish or a restart it gives the state it
    gives without; the same holds for the return to the upload screen,
    which also keeps the error message as it is. *)
Theorem restart_forgets JSON_parse (a : Action) (s : State) :
  match a with
  | Load _ => True
  | Reset =>
      uploadNewQuiz (handle JSON_parse a s) = uploadNewQuiz s
  | _ =>
      restartExam (handle JSON_parse a s) = restartExam s ∧
      uploadNewQuiz (handle JSON_parse a s) = uploadNewQuiz s
  end ∧
  uploadNewQuiz s = setUploadError (uploadError s) initialState ∧
  restartExam (uploadNewQuiz s) = uploadNewQuiz s.
Proof.
  split; [|done].
  destruct a; cbn; try done.
  - unfold nextQuestion. by destruct (_ <? _).
  - unfold prevQuestion. by destruct (_ <? _).
Qed.

(** ** The states of a session *)

(** Every reachable state holds validated questions and a position that
    is the index of a question, or 0 when there is none; on the upload
    screen no answer is stored. *)
Theorem reachable_wellformed JSON_parse (s : State) :
  reachable JSON_parse s →
  Forall is_question (questions s) ∧
  0 ≤ currentQuestion s ≤ Z.max 0 (Z.of_nat (length (questions s)) - 1) ∧
  (phase s = Empty → userAnswers s = ∅ ∧ currentQuestion s = 0).
Proof.
  intros (HQ & Hkeys & Hpos)%reachable_invariant.
  unfold position_in_range in Hpos. split_and!; [done|lia..|].
  unfold phase. destruct (questions s) eqn:Hqs; cbn; [|by repeat case_match].
  intros _. split; [|cbn in Hpos; lia].
  apply map_eq. intros k. rewrite lookup_empty.
  apply not_elem_of_dom. intros Hk. specialize (Hkeys k Hk).
  rewrite Hqs in Hkeys. cbn in Hkeys. lia.
Qed.

Lemma reachable_sample_exam :
  reachable quiz_parse
    (handle quiz_parse (SelectAnswer 1%float)
      (handle quiz_parse Start
        (handle quiz_parse (Load (Some (ResultString sample_quiz_text)))
           initialState))).
Proof.
  apply reachable_step; [|reflexivity].
  apply reachable_step; [|exact I].
  apply reachable_step; [|exact I].
  apply reachable_initial.
Defined.

Lemma reachable_wellformed_witness :
  let s := handle quiz_parse (SelectAnswer 1%float)
             (handle quiz_parse Start
               (handle quiz_parse (Load (Some (ResultString sample_quiz_text)))
                  initialState)) in
  length (questions s) = 2%nat ∧ Forall is_question (questions s) ∧
  0 ≤ currentQuestion s ≤ 1.
Proof.
  pose proof (reachable_wellformed quiz_parse _ reachable_sample_exam)
    as (HQ & Hp & _).
  cbv zeta. split_and!; [reflexivity|exact HQ|exact (proj1 Hp)|exact (proj2 Hp)].
Defined.

(** ** The exam screen *)

Lemma renderExam_question (s : State) (q : json) :
  array_get (questions s) (currentQuestion s) = Some q →
  is_question q →
  ∃ props items,
    q = JObj props ∧
    own_property props "choices" = Some (JArr items) ∧
    truthy (own_property props "question") = true ∧
    renderExam s =
    inr (mkExamScreen
           (currentQuestion s + 1)
           (length (questions s))
           (Number_of_Z (currentQuestion s + 1) /
            Number_of_nat (length (questions s)) * 100)%float
           (Math_round
              (Number_of_Z (currentQuestion s + 1) /
               Number_of_nat (length (questions s)) * 100)%float)
           (own_property props "question")
           (imap (choiceButton s) items)
           (currentQuestion s =? 0)
           (if currentQuestion s =? Z.of_nat (length (questions s)) - 1
            then Finish else Next)
           (size (userAnswers s))).
Proof.
  intros Hq (props & items & a & -> & Hp & Hc & Ha)%is_question_fields.
  exists props, items. split_and!; [done..|].
  unfold renderExam. rewrite Hq. cbn. by rewrite Hc.
Qed.

Lemma valid_children_imap {B} (f : B → option json) (items : list json) :
  ∀ g : nat → json → B,
  (∀ i x, f (g i x) = Some x) →
  forallb valid_children (f <$> imap g items) = forallb valid_child items.
Proof.
  induction items as [|x items IH]; intros g Hg; [done|].
  cbn. rewrite Hg. cbn. f_equal. apply IH. intros i y. apply Hg.
Qed.

Lemma renderExam_inv (s : State) (view : ExamScreen) :
  renderExam s = inr view →
  ∃ q items,
    current_fields s q (prompt view) items ∧
    choiceButtons view = imap (choiceButton s) items.
Proof.
  intros Hview. unfold renderExam in Hview.
  destruct (array_get (questions s) (currentQuestion s)) as [q|] eqn:Hq;
    [|discriminate].
  destruct q as [| | | | |props]; try discriminate. cbn in Hview.
  destruct (own_property props "choices") as [[| | | |items|]|] eqn:Hc;
    try discriminate.
  cbn in Hview. injection Hview as <-.
  exists (JObj props), items. unfold current_fields. cbn. by rewrite Hc.
Qed.

Lemma renderExam_fields (s : State) q p items :
  current_fields s q p items →
  ∃ view, renderExam s = inr view ∧ prompt view = p ∧
          choiceButtons view = imap (choiceButton s) items.
Proof.
  intros (Hq & Hp & Hc). unfold renderExam. rewrite Hq.
  destruct q as [| | | | |props]; try discriminate.
  cbn in Hp, Hc. injection Hp as <-. injection Hc as Hc.
  cbn. rewrite Hc. cbn. eauto.
Qed.

Lemma current_fields_unique (s : State) q p items q' p' items' :
  current_fields s q p items → current_fields s q' p' items' →
  q' = q ∧ p' = p ∧ items' = items.
Proof.
  intros (Hq & Hp & Hc) (Hq' & Hp' & Hc').
  rewrite Hq in Hq'. injection Hq' as <-.
  rewrite Hp in Hp'. injection Hp' as <-.
  rewrite Hc in Hc'. by injection Hc' as <-.
Qed.

Lemma displayExam_fields (s : State) q p items :
  current_fields s q p items →
  ∃ view,
    renderExam s = inr view ∧ prompt view = p ∧
    displayExam s =
    if valid_children p && forallb valid_child items
    then Displayed view else InvalidChild.
Proof.
  intros (view & Hview & Hp & Hb)%renderExam_fields.
  exists view. split_and!; [done..|].
  unfold displayExam, mount. rewrite Hview. unfold examChildren.
  cbn [forallb]. rewrite Hp, Hb.
  by rewrite (valid_children_imap _ items (choiceButton s)).
Qed.

(** What the exam screen (the last branch of the render function, the
    one taken during the exam) comes to in any state.  It is displayed
    exactly when the
    position is the index of an element that has an array of [choices]
    and neither its prompt nor a choice holds an object; with an object
    among them the render function returns its elements and React throws
    on the object; without an array of [choices] the render function
    itself throws, outside the question set on the first property it
    reads.  A displayed screen is the one the render function returned. *)
Theorem exam_screen_displayed (s : State) :
  ((∃ view, displayExam s = Displayed view) ↔
   ∃ q p items, current_fields s q p items ∧
                valid_children p && forallb valid_child items = true) ∧
  (displayExam s = InvalidChild ↔
   ∃ q p items, current_fields s q p items ∧
                valid_children p && forallb valid_child items = false) ∧
  ((∃ e, displayExam s = Throws e) ↔
   ¬ ∃ q items, array_get (questions s) (currentQuestion s) = Some q ∧
                get q "choices" = inr (Some (JArr items))) ∧
  (¬ 0 ≤ currentQuestion s < Z.of_nat (length (questions s)) →
   displayExam s =
   Throws (TypeError "Cannot read properties of undefined (reading 'question')")) ∧
  (∀ view, displayExam s = Displayed view → renderExam s = inr view) ∧
  (displayExam s = InvalidChild → ∃ view, renderExam s = inr view).
Proof.
  destruct (renderExam s) as [e|view] eqn:Hview.
  - assert (displayExam s = Throws e) as Hd
      by (unfold displayExam; by rewrite Hview).
    assert (∀ q p items, ¬ current_fields s q p items) as Hnone.
    { intros q p items (view & Hv & _)%renderExam_fields. congruence. }
    rewrite Hd. split_and!.
    + split; [by intros [view [=]]|]. intros (q & p & items & H & _).
      by destruct (Hnone q p items).
    + split; [done|]. intros (q & p & items & H & _).
      by destruct (Hnone q p items).
    + split; [|eauto]. intros _ (q & items & Hq & Hc).
      destruct q as [| | | | |props]; try discriminate.
      by destruct (Hnone (JObj props) (own_property props "question") items).
    + intros Hout. f_equal.
      destruct (array_get (questions s) (currentQuestion s)) as [q|] eqn:Hq.
      * destruct Hout. apply array_get_in_range. by exists q.
      * unfold renderExam in Hview. rewrite Hq in Hview.
        by injection Hview as <-.
    + by intros view [=].
    + done.
  - destruct (renderExam_inv s view Hview) as (q & items & Hf & Hb).
    destruct (displayExam_fields s q _ items Hf) as (view' & Hview' & _ & Hd).
    rewrite Hview in Hview'. injection Hview' as <-.
    assert (∀ q' p' items', current_fields s q' p' items' →
              valid_children p' && forallb valid_child items' =
              valid_children (prompt view) && forallb valid_child items) as Hsame.
    { intros q' p' items' H'.
      by destruct (current_fields_unique s _ _ _ _ _ _ Hf H') as (_ & -> & ->). }
    rewrite Hd.
    destruct (valid_children (prompt view) && forallb valid_child items) eqn:Hv;
      split_and!.
    + split; [|eauto]. intros _. by exists q, (prompt view), items.
    + split; [done|]. intros (q' & p' & items' & H' & Hv').
      rewrite (Hsame _ _ _ H') in Hv'. congruence.
    + split; [by intros [e [=]]|]. intros Hno. destruct Hno.
      exists q, items. by destruct Hf as (? & _ & ?).
    + intros Hout. destruct Hout. apply array_get_in_range.
      exists q. by destruct Hf.
    + by intros view' [= <-].
    + done.
    + split; [by intros [view' [=]]|]. intros (q' & p' & items' & H' & Hv').
      rewrite (Hsame _ _ _ H') in Hv'. congruence.
    + split; [|done]. intros _. by exists q, (prompt view), items.
    + split; [by intros [e [=]]|]. intros Hno. destruct Hno.
      exists q, items. by destruct Hf as (? & _ & ?).
    + intros Hout. destruct Hout. apply array_get_in_range.
      exists q. by destruct Hf.
    + done.
    + eauto.
Qed.

(** In the exam of a reachable session the position is the index of a
    validated question. *)
Lemma reachable_current_question JSON_parse (s : State) :
  reachable JSON_parse s →
  phase s = InProgress →
  ∃ q, array_get (questions s) (currentQuestion s) = Some q ∧
       is_question q ∧
       0 ≤ currentQuestion s < Z.of_nat (length (questions s)) ∧
       keys_in_range s.
Proof.
  intros (HQ & Hkeys & Hpos)%reachable_invariant (Hne & _)%phase_InProgress.
  unfold position_in_range in Hpos.
  assert (0 ≤ currentQuestion s < Z.of_nat (length (questions s))) as Hin.
  { destruct (questions s); [done|]. cbn [length] in *. lia. }
  destruct (proj2 (array_get_in_range _ _) Hin) as [q Hq].
  exists q. split_and!; [done| |lia|lia|done].
  apply array_get_Some in Hq as [_ Hq].
  eapply Forall_lookup_1 in HQ; [exact HQ | exact Hq].
Qed.

(** During the exam of a reachable session the render function does
    not throw: the current question exists and passed the validator,
    there is one button per choice, the heading reads "Question n of N"
    with [1 <= n <= N], and the counter of answers does not exceed [N].
    The screen is then displayed, unless the prompt or a choice holds an
    object, on which React throws: the validator lets such a question
    through. *)
Theorem exam_screen_reachable JSON_parse (s : State) :
  reachable JSON_parse s →
  phase s = InProgress →
  ∃ view q items,
    renderExam s = inr view ∧
    array_get (questions s) (currentQuestion s) = Some q ∧
    is_question q ∧
    get q "question" = inr (prompt view) ∧
    get q "choices" = inr (Some (JArr items)) ∧
    length (choiceButtons view) = length items ∧
    truthy (prompt view) = true ∧
    1 ≤ questionNumber view ≤ Z.of_nat (questionTotal view) ∧
    (answeredCount view ≤ questionTotal view)%nat ∧
    displayExam s =
    if valid_children (prompt view) && forallb valid_child items
    then Displayed view else InvalidChild.
Proof.
  intros Hreach Hphase.
  destruct (reachable_current_question JSON_parse s Hreach Hphase)
    as (q & Hq & Hisq & Hin & Hkeys).
  destruct (renderExam_question s q Hq Hisq)
    as (props & items & -> & Hc & Hp & Hview).
  assert (current_fields s (JObj props) (own_property props "question") items)
    as Hf by (unfold current_fields; cbn; by rewrite Hc).
  destruct (displayExam_fields s _ _ _ Hf) as (view & Hview' & _ & Hd).
  rewrite Hview in Hview'. injection Hview' as <-.
  eexists _, (JObj props), items. split; [exact Hview|].
  cbn [choiceButtons prompt questionNumber questionTotal answeredCount] in *.
  split_and!; try done.
  - cbn. by rewrite Hc.
  - by rewrite length_imap.
  - lia.
  - lia.
  - by apply keys_in_range_size.
Qed.

(** The first question of [sample_quiz] is displayed; the exam of a quiz
    whose prompt is an object is entered and cannot be displayed. *)
Lemma exam_screen_reachable_witness :
  (∃ view,
     displayExam
       (handle quiz_parse (SelectAnswer 1%float)
         (handle quiz_parse Start
           (handle quiz_parse (Load (Some (ResultString sample_quiz_text)))
              initialState))) = Displayed view ∧
     length (choiceButtons view) = 3%nat ∧ questionNumber view = 1) ∧
  let s := handle object_parse Start
             (handle object_parse (Load (Some (ResultString object_prompt_text)))
                initialState) in
  reachable object_parse s ∧ phase s = InProgress ∧
  (∃ view, renderExam s = inr view) ∧ displayExam s = InvalidChild.
Proof.
  split.
  - destruct (exam_screen_reachable quiz_parse _ reachable_sample_exam eq_refl)
      as (view & q & items & Hview & Hq & _ & _ & Hc & _ & _ & _ & _ & Hd).
    exists view.
    vm_compute in Hq. injection Hq as <-.
    vm_compute in Hc. injection Hc as <-.
    vm_compute in Hview. injection Hview as <-.
    split; [exact Hd|]. split; reflexivity.
  - cbv zeta.
    assert (reachable object_parse
              (handle object_parse Start
                (handle object_parse
                   (Load (Some (ResultString object_prompt_text)))
                   initialState))) as Hreach.
    { apply reachable_step; [|exact I].
      apply reachable_step; [|exact I]. apply reachable_initial. }
    destruct (exam_screen_reachable object_parse _ Hreach eq_refl)
      as (view & q & items & Hview & Hq & _ & _ & Hc & _ & _ & _ & _ & Hd).
    split; [exact Hreach|]. split; [reflexivity|]. split; [by exists view|].
    vm_compute in Hq. injection Hq as <-.
    vm_compute in Hc. injection Hc as <-.
    vm_compute in Hview. injection Hview as <-.
    exact Hd.
Defined.

(** What the buttons of the exam screen do in a reachable session:
    "Finish" stands in place of "Next" exactly on the last question;
    where "Next" stands it moves to the following question, and where
    "Previous" is not disabled it moves to the one before; "Previous" is
    disabled exactly on the first question; every choice button may be
    clicked and stores its own index as the answer to the current
    question. *)
Theorem exam_buttons JSON_parse (s : State) (view : ExamScreen) :
  reachable JSON_parse s →
  phase s = InProgress →
  renderExam s = inr view →
  let p := currentQuestion s in
  let N := Z.of_nat (length (questions s)) in
  (lastButton view = Finish ↔ p = N - 1) ∧
  (lastButton view = Next ↔ p < N - 1) ∧
  (lastButton view = Next →
   handle JSON_parse (lastButton view) s = setCurrentQuestion (p + 1) s) ∧
  (previousDisabled view = true ↔ p = 0) ∧
  (previousDisabled view = false →
   handle JSON_parse Previous s = setCurrentQuestion (p - 1) s) ∧
  (∀ i button, choiceButtons view !! i = Some button →
     enabled (buttonOnClick button) s ∧
     userAnswers (handle JSON_parse (buttonOnClick button) s) !! p =
       Some (Number_of_nat i)).
Proof.
  intros Hreach Hphase Hview p N.
  destruct (reachable_current_question JSON_parse s Hreach Hphase)
    as (q & Hq & Hisq & Hin & _).
  destruct (renderExam_question s q Hq Hisq)
    as (props & items' & -> & Hc' & _ & Hr).
  rewrite Hview in Hr. injection Hr as ->.
  cbn [lastButton previousDisabled choiceButtons questionNumber questionTotal] in *.
  fold p N in Hin |- *.
  assert (1 ≤ p + 1 ≤ N) as Hp by lia.
  split_and!.
  - destruct (Z.eqb_spec p (N - 1)); split; try done; lia.
  - destruct (Z.eqb_spec p (N - 1)); split; try done; lia.
  - destruct (Z.eqb_spec p (N - 1)); [done|]. intros _. cbn.
    unfold nextQuestion. fold p N. by rewrite (proj2 (Z.ltb_lt _ _)) by lia.
  - destruct (Z.eqb_spec p 0); split; try done.
  - destruct (Z.eqb_spec p 0); [done|]. intros _. cbn.
    unfold prevQuestion. fold p. by rewrite (proj2 (Z.ltb_lt _ _)) by lia.
  - intros i button Hb. rewrite list_lookup_imap in Hb.
    destruct (items' !! i) as [choice|] eqn:Hi; [|done].
    injection Hb as <-. cbn. split; [done|].
    apply lookup_insert_eq.
Qed.

Lemma exam_buttons_witness :
  ∃ view,
    renderExam
      (handle quiz_parse (SelectAnswer 1%float)
        (handle quiz_parse Start
          (handle quiz_parse (Load (Some (ResultString sample_quiz_text)))
             initialState))) = inr view ∧
    lastButton view = Next ∧ previousDisabled view = true.
Proof.
  destruct (renderExam
              (handle quiz_parse (SelectAnswer 1%float)
                (handle quiz_parse Start
                  (handle quiz_parse (Load (Some (ResultString sample_quiz_text)))
                     initialState)))) as [e|view] eqn:Hview;
    [vm_compute in Hview; discriminate|].
  exists view. split; [reflexivity|].
  pose proof (exam_buttons quiz_parse _ view reachable_sample_exam eq_refl Hview)
    as (_ & Hnext & _ & Hprev & _).
  split; [apply Hnext | apply Hprev]; reflexivity.
Defined.

(** ** Equality of numbers *)

Lemma SFeqb_same a b : SFeqb a b = true ↔ SFsame a b.
Proof.
  unfold SFeqb, SFsame.
  destruct a as [s|s| |s m e], b as [s'|s'| |s' m' e']; cbn [SFcompare];
    try (destruct s); try (destruct s');
    try (split; (done || intros [? ?]; done)).
  all: compare_cases; subst; cbn; split; try done; try lia;
    intros (_ & Hm & He); first [lia | injection Hm as Hm; lia].
Qed.

Lemma SFsame_sym a b : SFsame a b → SFsame b a.
Proof. unfold SFsame. destruct a, b; try done; intuition congruence. Qed.

Lemma SFsame_trans a b c : SFsame a b → SFsame b c → SFsame a c.
Proof. unfold SFsame. destruct a, b, c; try done; intuition congruence. Qed.

Lemma eqb_sym (x y : float) : PrimFloat.eqb x y = PrimFloat.eqb y x.
Proof.
  rewrite !FloatAxioms.eqb_spec. apply eq_true_iff_eq.
  rewrite !SFeqb_same. split; apply SFsame_sym.
Qed.

Lemma eqb_trans (x y z : float) :
  PrimFloat.eqb x y = true → PrimFloat.eqb y z = true →
  PrimFloat.eqb x z = true.
Proof.
  rewrite !FloatAxioms.eqb_spec, !SFeqb_same. apply SFsame_trans.
Qed.

(** ** The detailed review *)

Lemma reviewQuestion_question answers index q :
  is_question q →
  ∃ props items a,
    q = JObj props ∧
    own_property props "choices" = Some (JArr items) ∧
    own_property props "answer" = Some (JNum a) ∧
    reviewQuestion answers index q =
    inr (let userAnswer := answers !! Z.of_nat index in
         let isCorrect := strict_equals userAnswer (Some (JNum a)) in
         let wasAnswered := bool_decide (userAnswer ≠ None) in
         mkQuestionReview isCorrect wasAnswered
           (if isCorrect then "border-green-200 bg-green-50"
            else if wasAnswered then "border-red-200 bg-red-50"
            else "border-gray-200 bg-gray-50")
           (if wasAnswered
            then if isCorrect then CheckCircle else XCircle
            else GrayDot)
           (index + 1)
           (own_property props "question")
           (imap (reviewChoice userAnswer (Some (JNum a))) items)
           (match own_property props "reason" with
            | Some r =>
                if truthy (own_property props "reason") then ExplanationBox r
                else FalsyReason (own_property props "reason")
            | None => FalsyReason None
            end)).
Proof.
  intros (props & items & a & -> & Hp & Hc & Ha)%is_question_fields.
  exists props, items, a. split_and!; [done..|].
  unfold reviewQuestion. cbn. by rewrite Ha, Hc.
Qed.

Lemma reviewQuestion_isCorrect pre q rest answers card :
  is_question q →
  reviewQuestion answers (length pre) q = inr card →
  isCorrect card = answered_correctly (pre ++ q :: rest) answers (length pre) ∧
  wasAnswered card = bool_decide (answers !! Z.of_nat (length pre) ≠ None).
Proof.
  intros Hq Hcard.
  destruct (reviewQuestion_question answers (length pre) q Hq)
    as (props & items & a & -> & _ & Ha & Hr).
  rewrite Hcard in Hr. injection Hr as ->. cbn [isCorrect wasAnswered].
  split; [|done]. symmetry. apply answered_correctly_middle.
  cbn. by rewrite Ha.
Qed.

Lemma reviewQuestion_consistent answers index q card :
  is_question q →
  reviewQuestion answers index q = inr card →
  card_consistent card.
Proof.
  intros Hq Hcard.
  destruct (reviewQuestion_question answers index q Hq)
    as (props & items & a & -> & _ & _ & Hr).
  rewrite Hcard in Hr. injection Hr as ->.
  unfold card_consistent. cbn.
  destruct (answers !! Z.of_nat index) as [v|].
  - rewrite bool_decide_eq_true_2 by done. cbn.
    destruct (PrimFloat.eqb v a); cbn;
      split_and!; try done; split; try done; intuition discriminate.
  - rewrite bool_decide_eq_false_2 by (intros H; by apply H). cbn.
    split_and!; try done; split; try done; intuition discriminate.
Qed.

Lemma reviewQuestions_spec answers qs : ∀ pre,
  Forall is_question qs →
  ∃ cards,
    reviewQuestions answers qs (length pre) = inr cards ∧
    length cards = length qs ∧
    length (filter (λ card, isCorrect card) cards) =
      length (filter (λ i, answered_correctly (pre ++ qs) answers i)
                (seq (length pre) (length qs))) ∧
    Forall card_consistent cards.
Proof.
  induction qs as [|q rest IH]; intros pre Hqs.
  - exists []. by split_and!.
  - apply Forall_cons in Hqs as [Hq Hrest].
    destruct (reviewQuestion_question answers (length pre) q Hq)
      as (props & items & a & Heq & _ & _ & Hcard).
    destruct (IH (pre ++ [q]) Hrest) as (cards & Hcards & Hlen & Hcount & Hcons).
    rewrite length_app in Hcards, Hcount. cbn [length] in Hcards, Hcount.
    rewrite Nat.add_1_r in Hcards, Hcount.
    rewrite <- (assoc_L (++)) in Hcount. change ([q] ++ rest) with (q :: rest) in Hcount.
    eexists (_ :: cards). split_and!.
    + cbn [reviewQuestions]. rewrite Hcard.
      change (inr ?x ≫= ?f) with (f x). rewrite Hcards. reflexivity.
    + cbn [length]. by rewrite Hlen.
    + change (seq (length pre) (length (q :: rest)))
        with (length pre :: seq (S (length pre)) (length rest)).
      rewrite !filter_cons.
      destruct (reviewQuestion_isCorrect pre q rest answers _ Hq Hcard)
        as [-> _].
      destruct (answered_correctly _ _ (length pre)); repeat case_decide;
        try (exfalso; cbn in *; tauto); rewrite ?length_cons, Hcount; done.
    + constructor; [|done]. by eapply reviewQuestion_consistent.
Qed.

Lemma cardChildren_displayable answers index q card :
  is_question q →
  reviewQuestion answers index q = inr card →
  forallb valid_children (cardChildren card) = displayable q.
Proof.
  intros Hq Hcard.
  destruct (reviewQuestion_question answers index q Hq)
    as (props & items & a & -> & Hc & _ & Hr).
  rewrite Hcard in Hr. injection Hr as ->.
  unfold cardChildren, displayable.
  cbn [reviewPrompt choiceReviews explanation get ret].
  rewrite Hc. cbn [forallb]. rewrite forallb_app.
  rewrite (valid_children_imap _ items) by done.
  rewrite andb_assoc. f_equal. cbn [forallb]. rewrite andb_true_r.
  destruct (own_property props "reason") as [r|]; [|done].
  by destruct (truthy (Some r)).
Qed.

Lemma reviewQuestions_children answers qs : ∀ index cards,
  Forall is_question qs →
  reviewQuestions answers qs index = inr cards →
  forallb valid_children (cards ≫= cardChildren) = forallb displayable qs.
Proof.
  induction qs as [|q rest IH]; intros index cards Hqs Hcards.
  - by injection Hcards as <-.
  - apply Forall_cons in Hqs as [Hq Hrest].
    cbn [reviewQuestions] in Hcards.
    destruct (reviewQuestion answers index q) as [e|card] eqn:Hcard;
      [discriminate|].
    change (inr card ≫= ?f) with (f card) in Hcards.
    destruct (reviewQuestions answers rest (S index)) as [e|cards'] eqn:Hrec;
      [discriminate|].
    injection Hcards as <-.
    change ((card :: cards') ≫= cardChildren)
      with (cardChildren card ++ (cards' ≫= cardChildren)).
    rewrite forallb_app. cbn [forallb].
    rewrite (cardChildren_displayable answers index q card Hq Hcard).
    by rewrite (IH (S index) cards' Hrest Hrec).
Qed.

Lemma mount_review answers qs cards :
  Forall is_question qs →
  reviewQuestions answers qs 0 = inr cards →
  mount (reviewQuestions answers qs 0) (λ cards, cards ≫= cardChildren) =
  if forallb displayable qs then Displayed cards else InvalidChild.
Proof.
  intros Hqs Hcards. unfold mount. rewrite Hcards.
  by rewrite (reviewQuestions_children answers qs 0 cards Hqs Hcards).
Qed.

(** On a validated question set the render function does not throw on
    the review, and its cards agree with the summary: one card per
    question, as many green cards as [correctAnswers], as many others
    as the "Incorrect" tile shows, and on every card the icon and the
    colour tell the same verdict.  The review is displayed exactly when
    no prompt, choice or reason holds an object; with one, React throws
    and no card is shown. *)
Theorem review_matches_summary Number_toString (Q : list json)
    (A : gmap Z float) :
  Forall is_question Q →
  ∃ cards r,
    reviewQuestions A Q 0 = inr cards ∧
    summarize Number_toString Q A = inr r ∧
    length cards = totalQuestions r ∧
    length (filter (λ card, isCorrect card) cards) = correctAnswers r ∧
    Z.of_nat (length (filter (λ card, ¬ isCorrect card) cards)) = incorrect r ∧
    Forall card_consistent cards ∧
    mount (reviewQuestions A Q 0) (λ cards, cards ≫= cardChildren) =
    if forallb displayable Q then Displayed cards else InvalidChild.
Proof.
  intros HQ.
  destruct (reviewQuestions_spec A Q [] HQ) as (cards & Hcards & Hlen & Hcount & Hcons).
  change (length (@nil json)) with 0%nat in *. change ([] ++ Q) with Q in *.
  exists cards. eexists. split; [exact Hcards|].
  split; [by apply summarize_questions|].
  cbn [totalQuestions correctAnswers]. unfold incorrect.
  cbn [totalQuestions correctAnswers].
  fold (correct_count Q A) in Hcount.
  split_and!; [done|done| |done|by apply mount_review].
  pose proof (Permutation_length
                (filter_app_complement (λ card, isCorrect card) cards)) as Hsum.
  rewrite length_app in Hsum. lia.
Qed.

(** The review of [sample_quiz] is displayed with one green card; that
    of a question whose prompt is an object is not displayed. *)
Lemma review_matches_summary_witness :
  (∃ cards,
     mount (reviewQuestions {[ 0 := 1%float; 1 := 0%float ]} sample_quiz 0)
       (λ cards, cards ≫= cardChildren) = Displayed cards ∧
     length (filter (λ card, isCorrect card) cards) = 1%nat) ∧
  mount (reviewQuestions ∅ [question_object_prompt] 0)
    (λ cards, cards ≫= cardChildren) = InvalidChild.
Proof.
  split.
  - assert (Forall is_question sample_quiz) as HQ by (repeat constructor).
    destruct (review_matches_summary no_toString sample_quiz
                {[ 0 := 1%float; 1 := 0%float ]} HQ)
      as (cards & r & Hcards & Hr & _ & Hcount & _ & _ & Hd).
    exists cards. split; [exact Hd|].
    rewrite Hcount.
    assert (summarize no_toString sample_quiz {[ 0 := 1%float; 1 := 0%float ]} =
            inr (mkSummary 2 2 1 (Str "50.0"))) as Hex by reflexivity.
    rewrite Hex in Hr. by injection Hr as <-.
  - assert (Forall is_question [question_object_prompt]) as HQ
      by (repeat constructor).
    destruct (review_matches_summary no_toString [question_object_prompt] ∅ HQ)
      as (cards & r & _ & _ & _ & _ & _ & _ & Hd).
    exact Hd.
Defined.

(** The marks on the choices of a reviewed question.  There is one line
    per choice, in the order of the choices and lettered from "A".  The
    line of choice [i] is the user's exactly when the stored answer
    equals [i], and the correct one exactly when the [answer] of the
    question equals [i]; the correct line is green with a check, the
    user's line, when it is not the correct one, red with a cross, and
    every other line gray.  Hence, when the question was answered
    correctly, the user's line is the green one and no line carries a
    cross; when it was answered wrongly, the user's line is red with a
    cross; when it was not answered, no line is the user's. *)
Theorem review_marks (answers : gmap Z float) (index : nat) (q : json)
    (card : QuestionReview) :
  is_question q →
  reviewQuestion answers index q = inr card →
  ∃ items a,
    get q "choices" = inr (Some (JArr items)) ∧
    answer_of q = Some a ∧
    length (choiceReviews card) = length items ∧
    isCorrect card =
      match answers !! Z.of_nat index with
      | Some v => PrimFloat.eqb v a
      | None => false
      end ∧
    (wasAnswered card = true ↔ is_Some (answers !! Z.of_nat index)) ∧
    ∀ i line, choiceReviews card !! i = Some line →
      items !! i = Some (choiceText line) ∧
      choiceLabel line = String_fromCharCode (65 + Z.of_nat i) ∧
      isUserChoice line =
        match answers !! Z.of_nat index with
        | Some v => PrimFloat.eqb v (Number_of_nat i)
        | None => false
        end ∧
      isCorrectChoice line = PrimFloat.eqb a (Number_of_nat i) ∧
      checkMark line = isCorrectChoice line ∧
      crossMark line = isUserChoice line && negb (isCorrectChoice line) ∧
      choiceClass line =
        (if isCorrectChoice line then "bg-green-200 text-green-800 font-medium"
         else if isUserChoice line then "bg-red-200 text-red-800"
         else "bg-gray-100 text-gray-700") ∧
      (isCorrect card = true →
         isUserChoice line = isCorrectChoice line ∧ crossMark line = false) ∧
      (isCorrect card = false → isUserChoice line = true →
         isCorrectChoice line = false ∧ crossMark line = true ∧
         choiceClass line = "bg-red-200 text-red-800") ∧
      (wasAnswered card = false →
         isUserChoice line = false ∧ crossMark line = false).
Proof.
  intros Hq Hcard.
  destruct (reviewQuestion_question answers index q Hq)
    as (props & items & a & -> & Hc & Ha & Hr).
  rewrite Hcard in Hr. injection Hr as ->.
  exists items, a.
  cbn [choiceReviews isCorrect wasAnswered].
  split; [cbn; by rewrite Hc|].
  split; [unfold answer_of; cbn; by rewrite Ha|].
  split; [by rewrite length_imap|].
  split; [by destruct (answers !! Z.of_nat index)|].
  split.
  { destruct (answers !! Z.of_nat index) as [v|].
    - rewrite bool_decide_eq_true_2 by done. split; eauto.
    - rewrite bool_decide_eq_false_2 by (intros H; by apply H).
      split; [done|by intros [? ?]]. }
  intros i line Hline. rewrite list_lookup_imap in Hline.
  destruct (items !! i) as [choice|] eqn:Hi; [|done].
  injection Hline as <-. unfold reviewChoice.
  cbn [choiceText choiceLabel isUserChoice isCorrectChoice crossMark
       checkMark choiceClass].
  destruct (answers !! Z.of_nat index) as [v|]; cbn [strict_equals equals_number].
  - rewrite bool_decide_eq_true_2 by done.
    assert (PrimFloat.eqb v a = true → PrimFloat.eqb v (Number_of_nat i) = true →
            PrimFloat.eqb a (Number_of_nat i) = true) as H1.
    { intros Hva Hvi. rewrite eqb_sym in Hva. by eapply eqb_trans. }
    assert (PrimFloat.eqb v (Number_of_nat i) = true →
            PrimFloat.eqb a (Number_of_nat i) = true →
            PrimFloat.eqb v a = true) as H2.
    { intros Hvi Hai. rewrite eqb_sym in Hai. by eapply eqb_trans. }
    assert (PrimFloat.eqb v a = true → PrimFloat.eqb a (Number_of_nat i) = true →
            PrimFloat.eqb v (Number_of_nat i) = true) as H3.
    { intros Hva Hai. by eapply eqb_trans. }
    destruct (PrimFloat.eqb v a), (PrimFloat.eqb v (Number_of_nat i)),
      (PrimFloat.eqb a (Number_of_nat i)); cbn;
      split_and!; intros; try done;
      try (by specialize (H1 eq_refl eq_refl));
      try (by specialize (H2 eq_refl eq_refl));
      try (by specialize (H3 eq_refl eq_refl)).
  - rewrite bool_decide_eq_false_2 by (intros H; by apply H). cbn.
    destruct (PrimFloat.eqb a (Number_of_nat i)); by split_and!.
Qed.

(** The first question of [sample_quiz], answered with the choice 0
    while its answer is 1: the first line is the user's and carries the
    cross, the second is the correct one and carries the check. *)
Lemma review_marks_witness :
  ∃ card,
    reviewQuestion {[ 0 := 0%float ]} 0 question_1 = inr card ∧
    length (choiceReviews card) = 3%nat ∧
    isCorrect card = false ∧
    (∀ line, choiceReviews card !! 0%nat = Some line →
       isUserChoice line = true ∧ isCorrectChoice line = false) ∧
    (∀ line, choiceReviews card !! 1%nat = Some line →
       isUserChoice line = false ∧ isCorrectChoice line = true).
Proof.
  assert (is_question question_1) as Hq by reflexivity.
  destruct (reviewQuestion {[ 0 := 0%float ]} 0 question_1) as [e|card] eqn:Hr;
    [vm_compute in Hr; discriminate|].
  exists card. split; [reflexivity|].
  destruct (review_marks {[ 0 := 0%float ]} 0 question_1 card Hq Hr)
    as (items & a & Hc & Ha & Hlen & Hcorrect & _ & Hlines).
  vm_compute in Hc. injection Hc as <-.
  vm_compute in Ha. injection Ha as <-.
  split; [exact Hlen|]. split; [exact Hcorrect|].
  split; intros line Hline;
    destruct (Hlines _ line Hline) as (_ & _ & -> & -> & _); split; reflexivity.
Defined.

(** ** Scores and progress of quizzes of up to 100 questions *)

Lemma score_order_check_100 :
  forallb score_order_check (seq 1 100) = true.
Proof. vm_compute. reflexivity. Qed.

Lemma score_order_check_at (t : nat) :
  (0 < t ≤ 100)%nat → score_order_check t = true.
Proof.
  intros Ht. pose proof score_order_check_100 as Hall.
  rewrite List.forallb_forall in Hall. apply Hall, List.in_seq. lia.
Qed.

Lemma score_tenths_step (t c : nat) :
  score_order_check t = true → (c < t)%nat →
  ∃ n n', score_tenths c t = Some n ∧ score_tenths (S c) t = Some n' ∧ n ≤ n'.
Proof.
  unfold score_order_check. intros Hcheck Hc.
  destruct (score_tenths 0 t) as [z|]; [|discriminate].
  destruct (score_tenths t t) as [k|]; [|discriminate].
  apply andb_prop in Hcheck as [_ Hcheck].
  rewrite List.forallb_forall in Hcheck.
  specialize (Hcheck c ltac:(apply List.in_seq; lia)).
  destruct (score_tenths c t) as [n|]; [|discriminate].
  destruct (score_tenths (S c) t) as [n'|]; [|discriminate].
  exists n, n'. split_and!; [done..|]. by apply Z.leb_le.
Qed.

Lemma score_tenths_ends (t : nat) :
  score_order_check t = true →
  score_tenths 0 t = Some 0 ∧ score_tenths t t = Some 1000.
Proof.
  unfold score_order_check. intros Hcheck.
  destruct (score_tenths 0 t) as [z|]; [|discriminate].
  destruct (score_tenths t t) as [k|]; [|discriminate].
  apply andb_prop in Hcheck as [[Hz Hk]%andb_prop _].
  apply Z.eqb_eq in Hz, Hk. by subst.
Qed.

Lemma score_tenths_monotone (t c c' : nat) :
  score_order_check t = true → (c ≤ c' ≤ t)%nat →
  ∃ n n', score_tenths c t = Some n ∧ score_tenths c' t = Some n' ∧ n ≤ n'.
Proof.
  intros Hcheck [Hc Ht]. induction Hc as [|c' Hc IH].
  - destruct (Nat.eq_dec c t) as [->|Hne].
    + destruct (score_tenths_ends t Hcheck) as [_ H]. exists 1000, 1000. by rewrite H.
    + destruct (score_tenths_step t c Hcheck ltac:(lia)) as (n & _ & Hn & _).
      exists n, n. by rewrite Hn.
  - destruct (IH ltac:(lia)) as (n & n1 & Hn & Hn1 & Hle).
    destruct (score_tenths_step t c' Hcheck ltac:(lia)) as (m & n' & Hm & Hn' & Hle').
    rewrite Hn1 in Hm. injection Hm as <-.
    exists n, n'. split_and!; [done..|lia].
Qed.

(** With up to 100 questions the printed score grows with the number of
    correct answers, from ["0.0"] for none to ["100.0"] for all. *)
Theorem score_order Number_toString (t c c' : nat) :
  (0 < t ≤ 100)%nat → (c ≤ c' ≤ t)%nat →
  ∃ n n',
    0 ≤ n ≤ n' ∧ n' ≤ 1000 ∧
    scorePercent Number_toString c t =
      Str (pretty (Z.to_N n `div` 10)%N +:+ "." +:+
           String (pretty_N_char (Z.to_N n `mod` 10)%N) "") ∧
    scorePercent Number_toString c' t =
      Str (pretty (Z.to_N n' `div` 10)%N +:+ "." +:+
           String (pretty_N_char (Z.to_N n' `mod` 10)%N) "") ∧
    scorePercent Number_toString 0 t = Str "0.0" ∧
    scorePercent Number_toString t t = Str "100.0".
Proof.
  intros Ht Hc. pose proof (score_order_check_at t Ht) as Hcheck.
  destruct (score_tenths_ends t Hcheck) as [H0 H1].
  destruct (score_tenths_monotone t c c' Hcheck Hc) as (n & n' & Hn & Hn' & Hle).
  destruct (score_tenths_monotone t 0 c Hcheck ltac:(lia)) as (z & m & Hz & Hm & Hzm).
  destruct (score_tenths_monotone t c' t Hcheck ltac:(lia)) as (m' & k & Hm' & Hk & Hmk).
  rewrite H0 in Hz. rewrite H1 in Hk. rewrite Hn in Hm. rewrite Hn' in Hm'.
  injection Hz as <-. injection Hk as <-. injection Hm as <-. injection Hm' as <-.
  exists n, n'. unfold scorePercent. rewrite (proj2 (Nat.ltb_lt 0 t)) by lia.
  unfold score_tenths in *.
  rewrite (printed_tenths_toFixed _ _ _ Hn), (printed_tenths_toFixed _ _ _ Hn'),
    (printed_tenths_toFixed _ _ _ H0), (printed_tenths_toFixed _ _ _ H1).
  split_and!; try done; lia.
Qed.

Lemma score_order_witness :
  scorePercent no_toString 0 3 = Str "0.0" ∧
  scorePercent no_toString 3 3 = Str "100.0".
Proof.
  destruct (score_order no_toString 3 1 2 ltac:(lia) ltac:(lia))
    as (n & n' & _ & _ & _ & _ & H0 & H1).
  by split.
Defined.

Lemma progress_check_100 :
  forallb (λ t, forallb (λ p, progress_check p t) (seq 0 t)) (seq 1 100) = true.
Proof. vm_compute. reflexivity. Qed.

Lemma renderExam_progress (s : State) (view : ExamScreen) :
  renderExam s = inr view →
  progress view =
    (Number_of_Z (currentQuestion s + 1) /
     Number_of_nat (length (questions s)) * 100)%float ∧
  progressPercent view = Math_round (progress view).
Proof.
  unfold renderExam.
  destruct (get_of _ "question") as [?|?]; [discriminate|]. cbn.
  destruct (get_of _ "choices") as [?|choices]; [discriminate|]. cbn.
  destruct (map_array _ choices _) as [?|?]; [discriminate|]. cbn.
  by intros [= <-].
Qed.

Lemma ltb_not_eqb (x y : float) :
  PrimFloat.ltb x y = true → PrimFloat.eqb x y = false.
Proof.
  rewrite FloatAxioms.ltb_spec, FloatAxioms.eqb_spec. unfold SFltb, SFeqb.
  by destruct (SFcompare _ _) as [[| |]|].
Qed.

(** On the exam screen of a quiz of up to 100 questions, with the
    position [p] in range, the percentage shown is an integer from 1 to
    100 that no other integer beats in closeness to the exact quotient
    [100 * (p + 1) / N]; the progress bar is full, and the percentage
    100, exactly on the last question. *)
Theorem progress_shown (s : State) (view : ExamScreen) :
  renderExam s = inr view →
  0 ≤ currentQuestion s < Z.of_nat (length (questions s)) →
  (length (questions s) ≤ 100)%nat →
  let p := currentQuestion s in
  let N := Z.of_nat (length (questions s)) in
  ∃ n,
    progressPercent view = RoundedInteger n ∧
    1 ≤ n ≤ 100 ∧
    2 * Z.abs (n * N - 100 * (p + 1)) ≤ N ∧
    (n = 100 ↔ p = N - 1) ∧
    (PrimFloat.eqb (progress view) 100 = true ↔ p = N - 1) ∧
    PrimFloat.ltb 0 (progress view) = true.
Proof.
  intros Hview Hp HN p N.
  destruct (renderExam_progress s view Hview) as [Hprog Hpct].
  pose proof progress_check_100 as Hall.
  rewrite List.forallb_forall in Hall.
  specialize (Hall (length (questions s)) ltac:(apply List.in_seq; lia)).
  rewrite List.forallb_forall in Hall.
  specialize (Hall (Z.to_nat p) ltac:(apply List.in_seq; lia)).
  unfold progress_check, progress_of in Hall.
  rewrite Z2Nat.id in Hall by lia. fold p in Hprog.
  rewrite <- Hprog, <- Hpct in Hall.
  destruct (progressPercent view) as [| |n]; try discriminate.
  apply andb_prop in Hall as [Hall Hpos].
  apply andb_prop in Hall as [Hall Hend].
  apply andb_prop in Hall as [Hall Hnear%Z.leb_le].
  apply andb_prop in Hall as [Hlow%Z.leb_le Hhigh%Z.leb_le].
  fold N in Hnear. exists n.
  split_and!; try done.
  - split.
    + intros ->. lia.
    + intros Hlast.
      replace (n * N - 100 * (p + 1)) with ((n - 100) * N) in Hnear by lia.
      nia.
  - destruct (Nat.eqb_spec (S (Z.to_nat p)) (length (questions s))) as [Heq|Hne].
    + split; [lia|done].
    + split; [|lia]. intros Heqb. apply ltb_not_eqb in Hend. congruence.
Qed.

Lemma progress_shown_witness :
  ∃ view n,
    renderExam sample_session = inr view ∧
    progressPercent view = RoundedInteger n ∧ n = 100.
Proof.
  destruct (renderExam sample_session) as [e|view] eqn:Hview;
    [vm_compute in Hview; discriminate|].
  destruct (progress_shown sample_session view Hview)
    as (n & Hn & _ & _ & Hlast & _); [cbn; lia..|].
  exists view, n. split_and!; [reflexivity|exact Hn|].
  apply Hlast. reflexivity.
Defined.

(** ** The screens as a state machine *)

(** Whatever the state, the screen after a handler other than an upload
    is decided by the handler and the screen before it: start leads from
    the pre-exam screen to the exam, finish to the results from any
    screen with questions, restart to the pre-exam screen, reset to the
    upload screen; selecting and moving change no screen, and nothing
    but an upload leaves the upload screen. *)
Theorem phase_machine JSON_parse (a : Action) (s : State) :
  match a with
  | Load _ => True
  | _ => phase (handle JSON_parse a s) = phase_after a (phase s)
  end.
Proof.
  destruct a; try exact I; unfold phase; cbn;
    try (unfold nextQuestion; destruct (_ <? _));
    try (unfold prevQuestion; destruct (_ <? _));
    cbn; destruct (questions s), (showResults s), (examStarted s); reflexivity.
Qed.

(** ** The review of a reachable session *)

Lemma reviewQuestions_answered answers qs : ∀ pre : list json,
  Forall is_question qs →
  ∃ cards,
    reviewQuestions answers qs (length pre) = inr cards ∧
    length (filter (λ card, wasAnswered card) cards) =
    length (filter (λ i, is_Some (answers !! Z.of_nat i))
              (seq (length pre) (length qs))).
Proof.
  induction qs as [|q rest IH]; intros pre Hqs.
  - exists []. by split.
  - apply Forall_cons in Hqs as [Hq Hrest].
    destruct (reviewQuestion_question answers (length pre) q Hq)
      as (props & items & a & Heq & _ & _ & Hcard).
    destruct (IH (pre ++ [q]) Hrest) as (cards & Hcards & Hcount).
    rewrite length_app in Hcards, Hcount. cbn [length] in Hcards, Hcount.
    rewrite Nat.add_1_r in Hcards, Hcount.
    eexists (_ :: cards). split.
    + cbn [reviewQuestions]. rewrite Hcard.
      change (inr ?x ≫= ?f) with (f x). rewrite Hcards. reflexivity.
    + change (seq (length pre) (length (q :: rest)))
        with (length pre :: seq (S (length pre)) (length rest)).
      rewrite !filter_cons. cbn [wasAnswered].
      destruct (answers !! Z.of_nat (length pre)) as [v|].
      * rewrite bool_decide_eq_true_2 by done.
        rewrite decide_True by done. rewrite decide_True by eauto.
        rewrite !length_cons. by rewrite Hcount.
      * rewrite bool_decide_eq_false_2 by (intros H; by apply H).
        rewrite decide_False by (intros []).
        rewrite decide_False by (by intros [? ?]). done.
Qed.

Lemma answered_indices_size (answers : gmap Z float) (n : nat) :
  (∀ k, k ∈ dom answers → 0 ≤ k ≤ Z.of_nat n - 1) →
  length (filter (λ i, is_Some (answers !! Z.of_nat i)) (seq 0 n)) =
  size answers.
Proof.
  intros Hkeys. set (l := filter _ _).
  assert (NoDup (Z.of_nat <$> l)) as Hnd
    by apply (NoDup_fmap_2 _), NoDup_filter, NoDup_seq.
  rewrite <- (length_fmap Z.of_nat), <- (size_list_to_set (C := gset Z)) by done.
  rewrite <- size_dom. f_equal. apply set_eq. intros k.
  rewrite elem_of_list_to_set, list_elem_of_fmap. split.
  - intros (i & -> & [Hi _]%list_elem_of_filter). by apply elem_of_dom.
  - intros Hk. specialize (Hkeys k Hk). exists (Z.to_nat k).
    split; [lia|]. apply list_elem_of_filter. split.
    + rewrite Z2Nat.id by lia. by apply elem_of_dom.
    + apply elem_of_seq. lia.
Qed.

(** In every reachable state the render function does not throw on the
    results: the summary is computed and the review has one card per
    question, and the cards of answered questions (green or red) are as
    many as the answers counted in the summary, so no stored answer is
    left out.  The review is displayed exactly when no prompt, choice or
    reason of the question set holds an object; with one, which the
    validator lets through, React throws. *)
Theorem review_reachable JSON_parse Number_toString (s : State) :
  reachable JSON_parse s →
  ∃ cards r,
    renderReview s = inr cards ∧
    calculateResults Number_toString s = inr r ∧
    length cards = totalQuestions r ∧
    length (filter (λ card, wasAnswered card) cards) = answeredQuestions r ∧
    length (filter (λ card, isCorrect card) cards) = correctAnswers r ∧
    displayReview s =
    if forallb displayable (questions s) then Displayed cards else InvalidChild.
Proof.
  intros (HQ & Hkeys & _)%reachable_invariant.
  destruct (reviewQuestions_spec (userAnswers s) (questions s) [] HQ)
    as (cards & Hcards & Hlen & Hcount & _).
  destruct (reviewQuestions_answered (userAnswers s) (questions s) [] HQ)
    as (cards' & Hcards' & Hanswered).
  change (length (@nil json)) with 0%nat in *.
  change ([] ++ questions s) with (questions s) in *.
  rewrite Hcards in Hcards'. injection Hcards' as <-.
  exists cards. eexists. split; [exact Hcards|].
  split; [by apply summarize_questions|].
  cbn [totalQuestions answeredQuestions correctAnswers].
  split_and!; [done| |done|by apply mount_review].
  by rewrite Hanswered, (answered_indices_size _ _ Hkeys).
Qed.

(** The review of the sample session is displayed; that of a session on
    a question whose prompt is an object is not. *)
Lemma review_reachable_witness :
  (∃ cards,
     displayReview
       (handle quiz_parse (SelectAnswer 1%float)
         (handle quiz_parse Start
           (handle quiz_parse (Load (Some (ResultString sample_quiz_text)))
              initialState))) = Displayed cards ∧
     length cards = 2%nat ∧
     length (filter (λ card, wasAnswered card) cards) = 1%nat) ∧
  let s := handle object_parse Finish
             (handle object_parse Start
               (handle object_parse
                  (Load (Some (ResultString object_prompt_text)))
                  initialState)) in
  reachable object_parse s ∧ phase s = Results ∧
  displayReview s = InvalidChild.
Proof.
  split.
  - destruct (review_reachable quiz_parse no_toString _ reachable_sample_exam)
      as (cards & r & Hcards & Hr & Hlen & Hanswered & _ & Hd).
    exists cards. split; [exact Hd|].
    rewrite Hlen, Hanswered.
    vm_compute in Hr. injection Hr as <-. split; reflexivity.
  - cbv zeta.
    assert (reachable object_parse
              (handle object_parse Finish
                (handle object_parse Start
                  (handle object_parse
                     (Load (Some (ResultString object_prompt_text)))
                     initialState)))) as Hreach.
    { apply reachable_step; [|exact I].
      apply reachable_step; [|exact I].
      apply reachable_step; [|exact I]. apply reachable_initial. }
    destruct (review_reachable object_parse no_toString _ Hreach)
      as (cards & r & _ & _ & _ & _ & _ & Hd).
    split; [exact Hreach|]. split; [reflexivity|]. exact Hd.
Defined.
